(** * VelodyneCapture: packet reconstruction and the capture queue

    A shallow embedding of [3rdparty/VelodyneCapture/VelodyneCapture_cloud.h]:
    the calibration tables set up by [VLP16Capture::initialize] and
    [HDL32ECapture::initialize], the body of the capture thread
    [VelodyneCapture::capturePCAP], and the consumer side
    [VelodyneCapture::retrieve].

    Numeric conventions.
    - [uint8_t], [uint16_t], [uint32_t] packet fields are values of [N];
      where the code wraps ([header->len - 42], the cast of the point count
      to [uint32_t]) the wrap-around is written out.
    - Azimuths ([azimuth], [last_azimuth], [interpolated]) are [double]s in
      the code.  Every value they take is a half-integer of magnitude below
      2^18 (a 16-bit rotational position, plus an integer divided by 2.0,
      minus 36000), which [double] represents exactly; they are rationals
      here and all comparisons on them are computed.
    - Point coordinates and the calibration tables go through [std::cos] and
      [std::sin]; they are real numbers here.  The rounding of [double]
      arithmetic and of the casts to [float] is not part of this model.
    - The capture thread is modelled sequentially: the mutex around the queue
      push is a no-op, the [run] flag stays set until the loop ends, and the
      outcome of [mutex.try_lock()] in [retrieve] is an input. *)

From Stdlib Require Import ZArith NArith QArith Qreals Reals Psatz.
From Stdlib Require Import List Bool String Ascii.
From Stdlib Require Import Decimal DecimalFacts DecimalString DecimalPos.
Import ListNotations.

(** * Outcomes of the capture thread *)

(** A step of the thread either goes on with a new value, terminates the
    process (failed [assert], exception leaving the thread function), or has
    no defined behaviour (read past the end of a [std::vector], integer
    division by zero). *)
Inductive result (A : Type) : Type :=
| Ok (a : A)
| Abort
| Undefined.

Arguments Ok {A} a.
Arguments Abort {A}.
Arguments Undefined {A}.

Definition bind {A B : Type} (r : result A) (k : A -> result B) : result B :=
  match r with
  | Ok a => k a
  | Abort => Abort
  | Undefined => Undefined
  end.

Notation "x <- r ;; k" := (bind r (fun x => k))
  (at level 61, r at next level, right associativity).

(** [for ( int i = start; i < start + n; i++ ) body], threading the state. *)
Fixpoint for_loop {St : Type} (n start : nat) (body : nat -> St -> result St)
  (s : St) : result St :=
  match n with
  | O => Ok s
  | S n' => s' <- body start s ;; for_loop n' (S start) body s'
  end.

(** * Data model *)

(** [struct LaserReturn] (packed). *)
Record LaserReturn : Type := {
  distance : N;     (* uint16_t *)
  intensity : N     (* uint8_t *)
}.

(** [struct FiringData].  The fixed-size array [laserReturns[LASER_PER_FIRING]]
    is a function of the index; the code only reads it at
    [laser_index % MAX_NUM_LASERS] with [laser_index < LASER_PER_FIRING]. *)
Record FiringData : Type := {
  blockIdentifier : N;      (* uint16_t *)
  rotationalPosition : N;   (* uint16_t *)
  laserReturns : nat -> LaserReturn
}.

(** [struct DataPacket]; [firingData[FIRING_PER_PKT]] is read at
    [firing_index < FIRING_PER_PKT] and at 0 and 1. *)
Record DataPacket : Type := {
  firingData : nat -> FiringData;
  gpsTimestamp : N;   (* uint32_t *)
  mode : N;           (* uint8_t *)
  sensorType : N      (* uint8_t *)
}.

Definition LASER_PER_FIRING : nat := 32.
Definition FIRING_PER_PKT : nat := 12.

(** What [pcap_next_ex] hands over: the [pcap_pkthdr] fields the thread reads
    and the payload as [reinterpret_cast<const DataPacket*>( data + 42 )]
    sees it. *)
Record timeval : Type := {
  tv_sec : Z;
  tv_usec : Z
}.

Record pcap_pkthdr : Type := {
  ts : timeval;
  caplen : N;   (* bpf_u_int32 *)
  len : N       (* bpf_u_int32 *)
}.

Record Packet : Type := {
  header : pcap_pkthdr;
  data : DataPacket
}.

(** [PointT]: the three coordinates the thread writes. *)
Record PointT : Type := {
  x : R;
  y : R;
  z : R
}.

(** Modelled from the spec: the point-cloud container [pcl::PointCloud<PointT>]
    is not part of the sources; it is a sequence of points with a settable
    timestamp ([header.stamp]), [width] and [height]. *)
Record PointCloudT : Type := {
  stamp : Z;
  width : Z;
  height : Z;
  points : list PointT
}.

(** Modelled from the spec: [new PointCloudT()] is an empty container; the
    three fields the thread writes before a push are 0 until then. *)
Definition new_PointCloudT : PointCloudT :=
  {| stamp := 0; width := 0; height := 0; points := [] |}.

(** [PointCloudPtrT]: a shared pointer, possibly null. *)
Definition PointCloudPtrT : Type := option PointCloudT.

Definition Matrix4f : Type := nat -> nat -> R.

(** [matrix[i][j]], the copy of entry [(i,j)] of the matrix behind
    [transformMatrixPtr]. *)
Definition coeff (matrix : Matrix4f) (i j : nat) : R := matrix i j.
Arguments coeff matrix (i j)%_nat_scope.

(** The members of [VelodyneCapture] the capture thread reads. *)
Record VelodyneCapture : Type := {
  transformMatrixPtr : option Matrix4f;
  MAX_NUM_LASERS : nat;
  lut : list R;
  lut_cos : list R;
  lut_sin : list R
}.

(** The locals [last_azimuth] and [cloud] of [capturePCAP] and the member
    [queue] (front of the queue first). *)
Record CaptureState : Type := {
  last_azimuth : Q;
  cloud : PointCloudT;
  queue : list PointCloudPtrT
}.

Definition EPSILON : Q := 0.001.

(** * Calibration tables *)

(** [VelodyneCapture()]: the vectors are empty and no transform is set;
    [MAX_NUM_LASERS] has no initialiser, its value is whatever the caller
    finds there. *)
Definition VelodyneCapture_ctor (indeterminate : nat) : VelodyneCapture :=
  {| transformMatrixPtr := None;
     MAX_NUM_LASERS := indeterminate;
     lut := [];
     lut_cos := [];
     lut_sin := [] |}.

(** [open( filename, transformMatrix )] stores a copy of the matrix. *)
Definition open_transform (transformMatrix : Matrix4f) (c : VelodyneCapture)
  : VelodyneCapture :=
  {| transformMatrixPtr := Some transformMatrix;
     MAX_NUM_LASERS := MAX_NUM_LASERS c;
     lut := lut c;
     lut_cos := lut_cos c;
     lut_sin := lut_sin c |}.

(** [std::transform( first, last, d_first, op )] on vectors: the first
    [length src] cells of the destination are overwritten. *)
Definition std_transform (src dst : list R) (op : R -> R) : list R :=
  (map op src ++ skipn (List.length src) dst)%list.

Module VLP16Capture.

Definition MAX_NUM_LASERS : nat := 16.

Definition lut : list R :=
  [ -15.0; 1.0; -13.0; 3.0; -11.0; 5.0; -9.0; 7.0;
    -7.0; 9.0; -5.0; 11.0; -3.0; 13.0; -1.0; 15.0 ]%R.

(** The member initialisers of [lut_cos] and [lut_sin] repeat the angles. *)
Definition lut_cos : list R :=
  [ -15.0; 1.0; -13.0; 3.0; -11.0; 5.0; -9.0; 7.0;
    -7.0; 9.0; -5.0; 11.0; -3.0; 13.0; -1.0; 15.0 ]%R.

Definition lut_sin : list R :=
  [ -15.0; 1.0; -13.0; 3.0; -11.0; 5.0; -9.0; 7.0;
    -7.0; 9.0; -5.0; 11.0; -3.0; 13.0; -1.0; 15.0 ]%R.

Definition initialize (base : VelodyneCapture) : VelodyneCapture :=
  let lut_cos := std_transform lut lut_cos (fun a => cos (a * PI / 180.0)%R) in
  let lut_sin := std_transform lut lut_sin (fun a => sin (a * PI / 180.0)%R) in
  Build_VelodyneCapture (transformMatrixPtr base) MAX_NUM_LASERS lut lut_cos lut_sin.

(** [VLP16Capture()]; the capture thread is started by a later [open]. *)
Definition ctor (indeterminate : nat) : VelodyneCapture :=
  initialize (VelodyneCapture_ctor indeterminate).

End VLP16Capture.

Module HDL32ECapture.

Definition MAX_NUM_LASERS : nat := 32.

Definition lut : list R :=
  [ -30.67; -9.3299999; -29.33; -8.0; -28; -6.6700001; -26.67; -5.3299999;
    -25.33; -4.0; -24.0; -2.6700001; -22.67; -1.33; -21.33; 0.0;
    -20.0; 1.33; -18.67; 2.6700001; -17.33; 4.0; -16; 5.3299999;
    -14.67; 6.6700001; -13.33; 8.0; -12.0; 9.3299999; -10.67; 10.67 ]%R.

(** Only [MAX_NUM_LASERS] and [lut] are copied to the base; [lut_cos] and
    [lut_sin] of the base stay as they were. *)
Definition initialize (base : VelodyneCapture) : VelodyneCapture :=
  Build_VelodyneCapture (transformMatrixPtr base) MAX_NUM_LASERS lut
    (lut_cos base) (lut_sin base).

(** [HDL32ECapture()]; the capture thread is started by a later [open]. *)
Definition ctor (indeterminate : nat) : VelodyneCapture :=
  initialize (VelodyneCapture_ctor indeterminate).

End HDL32ECapture.

(** * Timestamp of a packet *)

Fixpoint fill (c : ascii) (n : nat) : string :=
  match n with
  | O => EmptyString
  | S n' => String c (fill c n')
  end.

(** [ss << v] for a [long]: decimal digits, with a leading minus sign for a
    negative value. *)
Definition insert_long (v : Z) : string :=
  NilZero.string_of_int (Z.to_int v).

(** [ss << std::setw( w ) << std::left << std::setfill( c ) << v]: the text of
    [v] comes first and the fill characters follow it, up to the width. *)
Definition setw_left_setfill (w : nat) (c : ascii) (v : Z) : string :=
  let s := insert_long v in
  (s ++ fill c (w - String.length s))%string.

Definition digit_value (c : ascii) : option Z :=
  let n := nat_of_ascii c in
  if (48 <=? n)%nat && (n <=? 57)%nat then Some (Z.of_nat (n - 48)) else None.

Definition isspace (c : ascii) : bool :=
  let n := nat_of_ascii c in
  (n =? 32)%nat || ((9 <=? n)%nat && (n <=? 13)%nat).

Fixpoint skip_spaces (s : string) : string :=
  match s with
  | String c s' => if isspace c then skip_spaces s' else s
  | EmptyString => s
  end.

(** The digits read by [strtoll]: it stops at the first character that is
    not a digit. *)
Fixpoint read_digits (s : string) (acc : Z) : Z :=
  match s with
  | String c s' =>
      match digit_value c with
      | Some d => read_digits s' (10 * acc + d)
      | None => acc
      end
  | EmptyString => acc
  end.

Definition starts_with_digit (s : string) : bool :=
  match s with
  | String c _ => match digit_value c with Some _ => true | None => false end
  | EmptyString => false
  end.

Definition LLONG_MAX : Z := 2 ^ 63 - 1.
Definition LLONG_MIN : Z := - 2 ^ 63.

(** [std::stoll]: optional white space, optional sign, decimal digits;
    [std::invalid_argument] without a digit and [std::out_of_range] outside
    [long long], neither of which the thread catches. *)
Definition stoll (s : string) : result Z :=
  let s := skip_spaces s in
  let '(negative, s) :=
    match s with
    | String "-"%char s' => (true, s')
    | String "+"%char s' => (false, s')
    | _ => (false, s)
    end in
  if starts_with_digit s then
    let v := read_digits s 0 in
    let v := if negative then (- v)%Z else v in
    if ((LLONG_MIN <=? v) && (v <=? LLONG_MAX))%Z then Ok v else Abort
  else Abort.

(** Lines 301-303: the text of the stream and its value. *)
Definition ss (h : pcap_pkthdr) : string :=
  (insert_long (tv_sec (ts h)) ++ setw_left_setfill 6 "0"%char (tv_usec (ts h)))%string.

Definition unixtime (h : pcap_pkthdr) : result Z :=
  stoll (ss h).

(** * The capture thread *)

Definition Qlt_bool (a b : Q) : bool := negb (Qle_bool b a).

(** Lines 310-317.  The two [uint16_t] positions are promoted to [int], so
    neither the sum nor the difference wraps. *)
Definition interpolated (packet : DataPacket) : Q :=
  let rp0 := Z.of_N (rotationalPosition (firingData packet 0)) in
  let rp1 := Z.of_N (rotationalPosition (firingData packet 1)) in
  if (rp1 <? rp0)%Z
  then inject_Z ((rp1 + 36000) - rp0) / 2
  else inject_Z (rp1 - rp0) / 2.

(** Lines 325-339: the azimuth of a laser slot. *)
Definition slot_azimuth (c : VelodyneCapture) (interpolated : Q)
  (firing_data : FiringData) (laser_index : nat) : Q :=
  let azimuth := inject_Z (Z.of_N (rotationalPosition firing_data)) in
  let azimuth :=
    if (MAX_NUM_LASERS c <=? laser_index)%nat
    then azimuth + interpolated
    else azimuth in
  if Qle_bool 36000 azimuth then azimuth - 36000 else azimuth.

(** Lines 344-346: the fields written before the push. *)
Definition finalize (unixtime : Z) (cl : PointCloudT) : PointCloudT :=
  {| stamp := unixtime;
     width := Z.of_nat (List.length (points cl)) mod 2 ^ 32;
     height := 1;
     points := points cl |}.

(** Lines 341-356.  [MAX_QUEUE_SIZE] is not defined anywhere in the sources,
    so the wait loop under [#ifdef MAX_QUEUE_SIZE] is not compiled. *)
Definition complete_rotation (unixtime : Z) (azimuth : Q) (st : CaptureState)
  : CaptureState :=
  if Qlt_bool azimuth (last_azimuth st)
  then {| last_azimuth := last_azimuth st;
          cloud := new_PointCloudT;
          queue := (queue st ++ [Some (finalize unixtime (cloud st))])%list |}
  else st.

(** Line 357. *)
Definition below_epsilon (r : LaserReturn) : bool :=
  Qlt_bool (inject_Z (Z.of_N (distance r))) EPSILON.

Definition M_PI_18000 : R := (PI / 18000.0)%R.

(** Lines 373-383.  [lut_cos] and [lut_sin] are [std::vector]s read with
    [operator[]]: an index at or past the size has no defined behaviour. *)
Definition reconstruct (c : VelodyneCapture) (r : LaserReturn)
  (laser_index_modulus : nat) (azimuth : Q) : result PointT :=
  match nth_error (lut_cos c) laser_index_modulus,
        nth_error (lut_sin c) laser_index_modulus with
  | Some vcos, Some vsin =>
      let d := IZR (Z.of_N (distance r)) in
      let p1 :=
        {| x := ((d * 2.0 * vcos) * sin (Q2R azimuth * M_PI_18000))%R;
           y := ((d * 2.0 * vcos) * cos (Q2R azimuth * M_PI_18000))%R;
           z := (d * 2.0 * vsin)%R |} in
      match transformMatrixPtr c with
      | Some matrix =>
          Ok {| x := (coeff matrix 0 0 * x p1 + coeff matrix 0 1 * y p1 + coeff matrix 0 2 * z p1 + coeff matrix 0 3)%R;
                y := (coeff matrix 1 0 * x p1 + coeff matrix 1 1 * y p1 + coeff matrix 1 2 * z p1 + coeff matrix 1 3)%R;
                z := (coeff matrix 2 0 * x p1 + coeff matrix 2 1 * y p1 + coeff matrix 2 2 * z p1 + coeff matrix 2 3)%R |}
      | None => Ok p1
      end
  | _, _ => Undefined
  end.

(** [cloud->points.push_back( p1 )]. *)
Definition push_back (cl : PointCloudT) (p : PointT) : PointCloudT :=
  {| stamp := stamp cl;
     width := width cl;
     height := height cl;
     points := (points cl ++ [p])%list |}.

(** Lines 323-390: one iteration of the inner loop. *)
Definition process_slot (c : VelodyneCapture) (unixtime : Z) (interpolated : Q)
  (firing_data : FiringData) (laser_index : nat) (st : CaptureState)
  : result CaptureState :=
  if (MAX_NUM_LASERS c =? 0)%nat then Undefined
  else
    let laser_index_modulus := (laser_index mod MAX_NUM_LASERS c)%nat in
    let azimuth := slot_azimuth c interpolated firing_data laser_index in
    let st := complete_rotation unixtime azimuth st in
    let r := laserReturns firing_data laser_index_modulus in
    if below_epsilon r then Ok st
    else
      p1 <- reconstruct c r laser_index_modulus azimuth ;;
      Ok {| last_azimuth := azimuth;
            cloud := push_back (cloud st) p1;
            queue := queue st |}.

(** Lines 320-391: the two nested loops over a packet. *)
Definition process_firing (c : VelodyneCapture) (unixtime : Z) (interpolated : Q)
  (firing_data : FiringData) (st : CaptureState) : result CaptureState :=
  for_loop LASER_PER_FIRING 0 (process_slot c unixtime interpolated firing_data) st.

Definition process_firings (c : VelodyneCapture) (unixtime : Z)
  (packet : DataPacket) (st : CaptureState) : result CaptureState :=
  for_loop FIRING_PER_PKT 0
    (fun firing_index =>
       process_firing c unixtime (interpolated packet) (firingData packet firing_index))
    st.

(** Line 296: [header->len] is unsigned, so is the difference. *)
Definition size_mismatch (h : pcap_pkthdr) : bool :=
  negb (((Z.of_N (len h) - 42) mod 2 ^ 32 =? 1206)%Z).

(** Line 308. *)
Definition sensorType_accepted (packet : DataPacket) : bool :=
  ((sensorType packet =? 0x21) || (sensorType packet =? 0x22))%N.

(** Lines 294-391: the body of the [while] loop once [pcap_next_ex] has
    delivered a packet.  [NDEBUG] tells whether [assert] is compiled out. *)
Definition process_packet (NDEBUG : bool) (c : VelodyneCapture) (p : Packet)
  (st : CaptureState) : result CaptureState :=
  if size_mismatch (header p) then Ok st
  else
    t <- unixtime (header p) ;;
    if negb NDEBUG && negb (sensorType_accepted (data p)) then Abort
    else process_firings c t (data p) st.

(** The state before the first packet (lines 271-284); the queue of a
    capture that has just been opened is empty. *)
Definition initial_state : CaptureState :=
  {| last_azimuth := 0; cloud := new_PointCloudT; queue := [] |}.

(** Lines 285-392: the loop over what [pcap_next_ex] returns, each item being
    the return value and the packet delivered with it.  A list that runs out
    is the end of the file. *)
Fixpoint capture_loop (NDEBUG : bool) (c : VelodyneCapture)
  (stream : list (Z * Packet)) (st : CaptureState) : result CaptureState :=
  match stream with
  | [] => Ok st
  | (ret, p) :: rest =>
      if (ret <=? 0)%Z then Ok st
      else st' <- process_packet NDEBUG c p st ;; capture_loop NDEBUG c rest st'
  end.

Definition capturePCAP (NDEBUG : bool) (c : VelodyneCapture)
  (stream : list (Z * Packet)) : result CaptureState :=
  capture_loop NDEBUG c stream initial_state.

(** * The consumer *)

(** [queue.push( cloud )]. *)
Definition push (q : list PointCloudPtrT) (f : PointCloudPtrT) : list PointCloudPtrT :=
  (q ++ [f])%list.

(** Lines 225-235.  [try_lock] is what [mutex.try_lock()] returns; the result
    is the queue and the caller's [cloud] after the call. *)
Definition retrieve (try_lock : bool) (q : list PointCloudPtrT)
  (cloud : PointCloudPtrT) : list PointCloudPtrT * PointCloudPtrT :=
  if try_lock then
    match q with
    | front :: rest => (rest, front)
    | [] => (q, cloud)
    end
  else (q, cloud).

(** * Fixtures for the examples *)

Definition echo (d : N) : LaserReturn :=
  {| distance := d; intensity := 0 |}.

(** A firing block at rotational position [rp] whose 32 returns are [returns]. *)
Definition block (rp : N) (returns : nat -> LaserReturn) : FiringData :=
  {| blockIdentifier := 0xEEFF; rotationalPosition := rp; laserReturns := returns |}.

(** A payload whose block [i] is at [positions i], every return of every block
    having raw distance [d]. *)
Definition payload (positions : nat -> N) (d : N) (sensor : N) : DataPacket :=
  {| firingData := fun i => block (positions i) (fun _ => echo d);
     gpsTimestamp := 0;
     mode := 0x37;
     sensorType := sensor |}.

(** The returns of a block whose only echo, of raw distance [d], is return [k]. *)
Definition single_echo (k : nat) (d : N) : nat -> LaserReturn :=
  fun j => if (j =? k)%nat then echo d else echo 0.

Definition pkthdr (sec usec : Z) (length : N) : pcap_pkthdr :=
  {| ts := {| tv_sec := sec; tv_usec := usec |}; caplen := length; len := length |}.

(** * Definitions for the statements *)

(** The wrap of the spec: [wrap(d) = d + 36000 if d < 0 else d]. *)
Definition spec_wrap (d : Z) : Z :=
  if (d <? 0)%Z then (d + 36000)%Z else d.

(** The wrap case of the spec: positions 35900 and 100. *)
Definition wrap_positions (i : nat) : N :=
  match i with
  | O => 35900
  | _ => 100
  end.

(** The tables of a capture object cover the channels [0 .. MAX_NUM_LASERS-1]. *)
Definition calibrated (c : VelodyneCapture) : bool :=
  (0 <? MAX_NUM_LASERS c)%nat
  && (MAX_NUM_LASERS c <=? List.length (lut_cos c))%nat
  && (MAX_NUM_LASERS c <=? List.length (lut_sin c))%nat.

(** Points held by the thread: those of the queued frames and those of the
    frame in progress. *)
Definition frame_size (f : PointCloudPtrT) : nat :=
  match f with
  | Some cl => List.length (points cl)
  | None => O
  end.

Definition total_points (st : CaptureState) : nat :=
  (list_sum (map frame_size (queue st)) + List.length (points (cloud st)))%nat.

(** A run of slots, each given by its firing block and its laser index. *)
Fixpoint process_slots (c : VelodyneCapture) (t : Z) (i : Q)
  (slots : list (FiringData * nat)) (st : CaptureState) : result CaptureState :=
  match slots with
  | [] => Ok st
  | (fd, j) :: rest => st' <- process_slot c t i fd j st ;; process_slots c t i rest st'
  end.

(** The slots of a packet in the order of the two loops. *)
Definition packet_slots (packet : DataPacket) : list (FiringData * nat) :=
  flat_map (fun firing_index =>
              map (fun laser_index => (firingData packet firing_index, laser_index))
                (seq 0 LASER_PER_FIRING))
    (seq 0 FIRING_PER_PKT).

(** Whether the return read at a slot passes the filter. *)
Definition kept (c : VelodyneCapture) (slot : FiringData * nat) : bool :=
  negb (below_epsilon (laserReturns (fst slot) (snd slot mod MAX_NUM_LASERS c))).

(** The azimuths of the slots whose return passes the filter. *)
Definition emitted_azimuths (c : VelodyneCapture) (i : Q)
  (slots : list (FiringData * nat)) : list Q :=
  map (fun slot => slot_azimuth c i (fst slot) (snd slot)) (filter (kept c) slots).

(** The same over what [pcap_next_ex] delivers, up to the first return value
    that ends the loop, packets of another size left out. *)
Fixpoint stream_azimuths (c : VelodyneCapture) (stream : list (Z * Packet)) : list Q :=
  match stream with
  | [] => []
  | (ret, p) :: rest =>
      if (ret <=? 0)%Z then []
      else
        ((if size_mismatch (header p) then []
          else emitted_azimuths c (interpolated (data p)) (packet_slots (data p)))
         ++ stream_azimuths c rest)%list
  end.

(** A packet the thread goes through without an exception or a failed
    assertion. *)
Definition checked (NDEBUG : bool) (p : Packet) : bool :=
  size_mismatch (header p)
  || (match unixtime (header p) with Ok _ => true | _ => false end
      && (NDEBUG || sensorType_accepted (data p))).

(** The rotational positions of the spec's data model: below 36000. *)
Definition valid_positions (packet : DataPacket) : bool :=
  forallb (fun firing_index =>
             (rotationalPosition (firingData packet firing_index) <? 36000)%N)
    (seq 0 FIRING_PER_PKT).

(** A packet of accepted size and sensor type, every block at position 100. *)
Definition steady_packet (d : N) : Packet :=
  {| header := pkthdr 10 42 1248; data := payload (fun _ => 100%N) d 0x22 |}.

(** A packet of the right size whose sensor type is 0. *)
Definition unknown_sensor_packet : Packet :=
  {| header := pkthdr 10 42 1248; data := payload (fun _ => 100%N) 1 0 |}.

(** The vertical angles as the spec lists them. *)
Definition spec_angles_16 : list R :=
  [ -15; 1; -13; 3; -11; 5; -9; 7; -7; 9; -5; 11; -3; 13; -1; 15 ]%R.

Definition spec_angles_32 : list R :=
  [ -30.67; -9.33; -29.33; -8.0; -28; -6.67; -26.67; -5.33;
    -25.33; -4.0; -24.0; -2.67; -22.67; -1.33; -21.33; 0.0;
    -20.0; 1.33; -18.67; 2.67; -17.33; 4.0; -16; 5.33;
    -14.67; 6.67; -13.33; 8.0; -12.0; 9.33; -10.67; 10.67 ]%R.

(** Rotational positions outside the range of the data model: block 0 at
    65535 makes [interpolated] negative, the second half of every later block
    gets a negative azimuth, and empty frames are pushed although no return
    has passed the filter. *)
Definition overflow_positions (i : nat) : N :=
  match i with
  | O => 65535
  | _ => 0
  end.

(** The decimal numeral written for a value that is not negative. *)
Definition numeral (v : Z) : uint :=
  match v with
  | Zpos p => Pos.to_uint p
  | _ => zero
  end.

(** The number of characters written for the microseconds. *)
Definition usec_digits (usec : Z) : nat := String.length (insert_long usec).

(** * Definitions for further properties of the capture thread *)

Definition frame_points (f : PointCloudPtrT) : list PointT :=
  match f with
  | Some cl => points cl
  | None => []
  end.

(** Every point the thread holds, oldest frame first, the frame in progress
    last. *)
Definition all_points (st : CaptureState) : list PointT :=
  (List.concat (map frame_points (queue st)) ++ points (cloud st))%list.

(** What [reconstruct] gives at the slots whose return passes the filter. *)
Definition reconstructed (c : VelodyneCapture) (i : Q)
  (slots : list (FiringData * nat)) : list (result PointT) :=
  map (fun slot =>
         reconstruct c (laserReturns (fst slot) (snd slot mod MAX_NUM_LASERS c))
           (snd slot mod MAX_NUM_LASERS c) (slot_azimuth c i (fst slot) (snd slot)))
    (filter (kept c) slots).

Fixpoint stream_reconstructed (c : VelodyneCapture) (stream : list (Z * Packet))
  : list (result PointT) :=
  match stream with
  | [] => []
  | (ret, p) :: rest =>
      if (ret <=? 0)%Z then []
      else
        ((if size_mismatch (header p) then []
          else reconstructed c (interpolated (data p)) (packet_slots (data p)))
         ++ stream_reconstructed c rest)%list
  end.

(** A queued frame as lines 344-346 leave it. *)
Definition finalized (f : PointCloudPtrT) : bool :=
  match f with
  | Some cl =>
      ((height cl =? 1) && (width cl =? Z.of_nat (List.length (points cl)) mod 2 ^ 32))%Z
  | None => false
  end.

Definition stamp_of (f : PointCloudPtrT) : Z :=
  match f with
  | Some cl => stamp cl
  | None => 0%Z
  end.

(** The values read from the capture times of the packets the loop goes
    through. *)
Fixpoint stream_times (stream : list (Z * Packet)) : list Z :=
  match stream with
  | [] => []
  | (ret, p) :: rest =>
      if (ret <=? 0)%Z then []
      else
        ((if size_mismatch (header p) then []
          else match unixtime (header p) with
               | Ok t => [t]
               | _ => []
               end)
         ++ stream_times rest)%list
  end.

(** The frames pushed while a packet stamped [t] is processed. *)
Definition pushed_at (t : Z) (pushed : list PointCloudPtrT) : Prop :=
  Forall (fun f => finalized f = true /\ stamp_of f = t) pushed.

(** Two packets across a wrap: every block at 35000, then every block at 100. *)
Definition wrap_stream : list (Z * Packet) :=
  [ (1%Z, {| header := pkthdr 10 420000 1248;
             data := payload (fun _ => 35000%N) 1 0x22 |});
    (1%Z, {| header := pkthdr 11 0 1248;
             data := payload (fun _ => 100%N) 1 0x22 |}) ].

(** The image of a point under the upper three rows of a matrix. *)
Definition affine (M : Matrix4f) (p : PointT) : PointT :=
  {| x := (coeff M 0 0 * x p + coeff M 0 1 * y p + coeff M 0 2 * z p + coeff M 0 3)%R;
     y := (coeff M 1 0 * x p + coeff M 1 1 * y p + coeff M 1 2 * z p + coeff M 1 3)%R;
     z := (coeff M 2 0 * x p + coeff M 2 1 * y p + coeff M 2 2 * z p + coeff M 2 3)%R |}.

(** The identity matrix with the translation [(tx, ty, tz)] in its last
    column. *)
Definition translation (tx ty tz : R) : Matrix4f :=
  fun i j =>
    if (i =? j)%nat then 1%R
    else if (j =? 3)%nat then
           match i with
           | 0%nat => tx
           | 1%nat => ty
           | 2%nat => tz
           | _ => 0%R
           end
         else 0%R.

Definition slot_azimuths (c : VelodyneCapture) (i : Q)
  (slots : list (FiringData * nat)) : list Q :=
  map (fun slot => slot_azimuth c i (fst slot) (snd slot)) slots.

(** [a <= b1 <= b2 <= ...] for [l = [b1; b2; ...]]. *)
Fixpoint nondecreasing (a : Q) (l : list Q) : bool :=
  match l with
  | [] => true
  | b :: l' => Qle_bool a b && nondecreasing b l'
  end.

Definition in_range (a : Q) : bool := Qle_bool 0 a && Qlt_bool a 36000.

(** * The public methods *)

Module Methods.

(** The members the public methods read and write: the PCAP handle (null
    when [None]), the file name, whether [thread] is non-null, the [run]
    flag and the queue (front first). *)
Record Members : Type := {
  pcap : option nat;
  filename : string;
  thread : bool;
  run : bool;
  queue : list PointCloudPtrT
}.

Definition set_queue (q : list PointCloudPtrT) (s : Members) : Members :=
  {| pcap := pcap s; filename := filename s; thread := thread s; run := run s;
     queue := q |}.

Definition set_run (b : bool) (s : Members) : Members :=
  {| pcap := pcap s; filename := filename s; thread := thread s; run := b;
     queue := queue s |}.

(** Lines 175-185. *)
Definition isOpen (s : Members) : bool :=
  match pcap s with
  | Some _ => true
  | None => false
  end.

(** Lines 188-193. *)
Definition isRun (s : Members) : bool :=
  run s || negb (match queue s with [] => true | _ => false end).

(** Lines 260-264. *)
Definition getQueueSize (s : Members) : nat := List.length (queue s).

(** Lines 196-222.  Joining the thread waits for [capturePCAP] to leave its
    loop; whatever it pushed in the meantime is gone when the queue is
    swapped with an empty one. *)
Definition close (s : Members) : Members :=
  {| pcap := None;
     filename := match pcap s with Some _ => EmptyString | None => filename s end;
     thread := false;
     run := false;
     queue := [] |}.

(** What the PCAP library answers to [open]: the handle of
    [pcap_open_offline] (null when [None]) and the return values of
    [pcap_compile] and [pcap_setfilter]. *)
Record pcap_answers : Type := {
  pcap_open_offline : option nat;
  pcap_compile : Z;
  pcap_setfilter : Z
}.

(** [open] returns [true] or leaves by [throw std::runtime_error]. *)
Inductive opened : Type :=
| Returned (b : bool) (s : Members)
| Thrown (s : Members).

(** Lines 135-171. *)
Definition open (answers : pcap_answers) (name : string) (s : Members) : opened :=
  let s := if isRun s then close s else s in
  match pcap_open_offline answers with
  | None => Thrown s
  | Some handle =>
      if (pcap_compile answers =? -1)%Z then Thrown s
      else if (pcap_setfilter answers =? -1)%Z then Thrown s
      else Returned true
             {| pcap := Some handle; filename := name; thread := true; run := true;
                queue := queue s |}
  end.

(** [retrieve] on the members. *)
Definition retrieve (try_lock : bool) (s : Members) (cloud : PointCloudPtrT)
  : Members * PointCloudPtrT :=
  (set_queue (fst (retrieve try_lock (queue s) cloud)) s,
   snd (retrieve try_lock (queue s) cloud)).

(** What the capture thread does to the members: a push (lines 347-349) and
    the end of the thread function (line 394). *)
Inductive event : Type :=
| Pushed (f : PointCloudPtrT)
| Ended.

Definition produce (s : Members) (e : event) : Members :=
  match e with
  | Pushed f => set_queue (push (queue s) f) s
  | Ended => set_run false s
  end.

Definition produce_all (es : list event) (s : Members) : Members :=
  fold_left produce es s.

Definition pushed (es : list event) : list PointCloudPtrT :=
  flat_map (fun e => match e with Pushed f => [f] | Ended => [] end) es.

(** The producer and one consumer, step by step. *)
Inductive action : Type :=
| Produce (e : event)
| Retrieve (try_lock : bool).

Definition produced (actions : list action) : list PointCloudPtrT :=
  flat_map (fun a => match a with Produce (Pushed f) => [f] | _ => [] end) actions.

(** The members, the consumer's cloud and the frames handed to the consumer
    so far, after a sequence of actions. *)
Fixpoint interleave (actions : list action) (s : Members) (cloud : PointCloudPtrT)
  (delivered : list PointCloudPtrT)
  : Members * PointCloudPtrT * list PointCloudPtrT :=
  match actions with
  | [] => (s, cloud, delivered)
  | Produce e :: rest => interleave rest (produce s e) cloud delivered
  | Retrieve try_lock :: rest =>
      let got := try_lock && negb (match queue s with [] => true | _ => false end) in
      interleave rest (fst (retrieve try_lock s cloud)) (snd (retrieve try_lock s cloud))
        (if got then delivered ++ [snd (retrieve try_lock s cloud)] else delivered)%list
  end.

(** Lines 238-251, one atomic step at a time: [getQueueSize()] under the
    lock, then either the read of [run] or the locked pop.  The capture
    thread runs in between: [world] gives, for each turn of the loop, what it
    does before the size is read and what it does between that and the next
    step.  [Ok None]: the world has run out and the consumer is still
    polling. *)
Fixpoint retrieve_block (world : list (list event * list event)) (s : Members)
  (cloud : PointCloudPtrT) : result (option (Members * PointCloudPtrT)) :=
  match world with
  | [] => Ok None
  | (before, between) :: rest =>
      let s1 := produce_all before s in
      let s2 := produce_all between s1 in
      if (getQueueSize s1 =? 0)%nat then
        if negb (run s2) then Ok (Some (s2, cloud))
        else retrieve_block rest s2 cloud
      else
        match queue s2 with
        | front :: q => Ok (Some (set_queue q s2, front))
        | [] => Undefined
        end
  end.

Definition events_of (world : list (list event * list event)) : list event :=
  flat_map (fun turn => fst turn ++ snd turn)%list world.

End Methods.

(** * [struct Laser] *)

Module Laser.

(** Lines 41-58.  The [double] fields are rationals: every finite [double]
    is one, and comparisons of finite values are exact; infinities and NaN
    are not represented. *)
Record Laser : Type := {
  azimuth : Q;
  vertical : Q;
  distance : N;    (* unsigned short *)
  intensity : N;   (* unsigned char *)
  id : N;          (* unsigned char *)
  time : Z         (* long long *)
}.

(** [operator <], lines 50-57. *)
Definition lt (a laser : Laser) : bool :=
  if Qeq_bool (azimuth a) (azimuth laser)
  then (id a <? id laser)%N
  else Qlt_bool (azimuth a) (azimuth laser).

End Laser.

(** * [MicroStopwatch] *)

Module MicroStopwatch.

Section Stopwatch.

(** [myFunction::commaFix] and the header that declares the members are not
    among the sources: the function is a parameter, and so is the conversion
    [cast] to the type of [elapsedCurrent] and [elapsedTotal]. *)
Variable commaFix : Z -> string.
Variable cast : Z -> Z.

(** The members; the two times are in microseconds on the local clock. *)
Record MicroStopwatch : Type := {
  elapsedCurrent : Z;
  elapsedTotal : Z;
  name : string;
  tictic : Z;
  toctoc : Z;
  ticPrintName : bool
}.

Definition endl : string := String (ascii_of_nat 10) EmptyString.

(** [tic( ticPrintName )] at time [now]: the new members and the text sent to
    [std::cout]. *)
Definition tic (now : Z) (flag : bool) (w : MicroStopwatch) : MicroStopwatch * string :=
  ({| elapsedCurrent := elapsedCurrent w;
      elapsedTotal := elapsedTotal w;
      name := name w;
      tictic := now;
      toctoc := toctoc w;
      ticPrintName := flag |},
   if flag then (name w ++ "... ")%string else EmptyString).

(** [toc_string()] at time [now]. *)
Definition toc_string (now : Z) (w : MicroStopwatch) : MicroStopwatch * string :=
  let current := cast (now - tictic w) in
  ({| elapsedCurrent := current;
      elapsedTotal := cast (elapsedTotal w + current);
      name := name w;
      tictic := tictic w;
      toctoc := now;
      ticPrintName := ticPrintName w |},
   (commaFix current ++ " us")%string).

(** [toc()] at time [now]. *)
Definition toc (now : Z) (w : MicroStopwatch) : MicroStopwatch * string :=
  let prefix := if negb (ticPrintName w) then (name w ++ ": ")%string else EmptyString in
  let '(w', text) := toc_string now w in
  (w', (prefix ++ text ++ endl)%string).

(** [elapsed_string()] and [elapsed()]. *)
Definition elapsed_string (w : MicroStopwatch) : string :=
  (commaFix (elapsedTotal w) ++ " us")%string.

Definition elapsed (w : MicroStopwatch) : string :=
  ((if negb (ticPrintName w) then (name w ++ ": ")%string else EmptyString)
   ++ elapsed_string w ++ endl)%string.

(** [rename( name )]. *)
Definition rename (n : string) (w : MicroStopwatch) : MicroStopwatch :=
  {| elapsedCurrent := elapsedCurrent w;
     elapsedTotal := elapsedTotal w;
     name := n;
     tictic := tictic w;
     toctoc := toctoc w;
     ticPrintName := ticPrintName w |}.

(** [tic] then [toc]s at the given times: the members and all the text. *)
Fixpoint tocs (times : list Z) (w : MicroStopwatch) : MicroStopwatch * string :=
  match times with
  | [] => (w, EmptyString)
  | now :: rest =>
      let '(w1, text1) := toc now w in
      let '(w2, text2) := tocs rest w1 in
      (w2, (text1 ++ text2)%string)
  end.

End Stopwatch.

End MicroStopwatch.

(** The sum of a list of integers. *)
Definition Zsum (l : list Z) : Z := fold_right Z.add 0%Z l.

(** * Stamps and sizes of the frames *)

(** What can be told of a queued frame without its coordinates: its stamp and
    its number of points. *)
Definition frame_summary (f : PointCloudPtrT) : Z * nat :=
  (stamp_of f, frame_size f).

(** Lines 341-359 and 385-388 at one slot of a packet whose time value is [t],
    on the last azimuth [la] and the number [n] of points of the frame in
    progress: the stamp and size of the frame the slot closes, if it closes
    one, then the two values after the slot. *)
Definition slot_frame (c : VelodyneCapture) (t : Z) (i : Q) (slot : FiringData * nat)
  (la : Q) (n : nat) : list (Z * nat) * (Q * nat) :=
  let azimuth := slot_azimuth c i (fst slot) (snd slot) in
  let closed := Qlt_bool azimuth la in
  let held := if closed then O else n in
  (if closed then [(t, n)] else [],
   if kept c slot then (azimuth, S held) else (la, held)).

Fixpoint slot_frames (c : VelodyneCapture) (t : Z) (i : Q)
  (slots : list (FiringData * nat)) (la : Q) (n : nat) : list (Z * nat) * (Q * nat) :=
  match slots with
  | [] => ([], (la, n))
  | slot :: rest =>
      let here := slot_frame c t i slot la n in
      let next := slot_frames c t i rest (fst (snd here)) (snd (snd here)) in
      ((fst here ++ fst next)%list, snd next)
  end.

(** The same over what [pcap_next_ex] delivers. *)
Fixpoint stream_frames (c : VelodyneCapture) (stream : list (Z * Packet))
  (la : Q) (n : nat) : list (Z * nat) * (Q * nat) :=
  match stream with
  | [] => ([], (la, n))
  | (ret, p) :: rest =>
      if (ret <=? 0)%Z then ([], (la, n))
      else if size_mismatch (header p) then stream_frames c rest la n
      else
        match unixtime (header p) with
        | Ok t =>
            let here :=
              slot_frames c t (interpolated (data p)) (packet_slots (data p)) la n in
            let next := stream_frames c rest (fst (snd here)) (snd (snd here)) in
            ((fst here ++ fst next)%list, snd next)
        | _ => ([], (la, n))
        end
  end.

(** Two packets across a wrap, every return at raw distance 1: every block of
    the first is at position 35000, every block of the second at 100. *)
Definition before_wrap : Packet :=
  {| header := pkthdr 10 420000 1248; data := payload (fun _ => 35000%N) 1 0x22 |}.

Definition after_wrap : Packet :=
  {| header := pkthdr 11 0 1248; data := payload (fun _ => 100%N) 1 0x22 |}.

(** A capture of two packets with every return at raw distance 1: the first,
    captured at 9 s, has every block at position 35000; the second, captured
    at 10 s 42 us, has every block at position 100. *)
Definition stamped_stream : list (Z * Packet) :=
  [ (1%Z, {| header := pkthdr 9 0 1248;
             data := payload (fun _ => 35000%N) 1 0x22 |});
    (1%Z, steady_packet 1) ].

(** A packet of accepted size and sensor type, every block at position 100,
    whose only echo, of raw distance [d], is return [k] of firing block [f]. *)
Definition lone_return (f k : nat) (d : N) : Packet :=
  {| header := pkthdr 10 420000 1248;
     data := {| firingData :=
                  fun firing_index =>
                    block 100 (if (firing_index =? f)%nat
                               then single_echo k d
                               else fun _ => echo 0);
                gpsTimestamp := 0;
                mode := 0x37;
                sensorType := 0x22 |} |}.

(** * The consumer: [retrieve] *)

Lemma fold_push (fs q : list PointCloudPtrT) :
  fold_left push fs q = (q ++ fs)%list.
Proof.
  revert q; induction fs as [|f fs IH]; intros q; simpl.
  - now rewrite List.app_nil_r.
  - rewrite IH. unfold push. now rewrite <- app_assoc.
Qed.

(** C10.  [retrieve] leaves the caller's cloud and the queue as they were
    when the lock is not obtained and when the queue is empty; otherwise the
    caller receives the front of the queue, which is removed, and the front
    is the frame pushed first among those still queued. *)
Theorem retrieve_frame_effect :
  forall (q : list PointCloudPtrT) (cloud : PointCloudPtrT),
    retrieve false q cloud = (q, cloud) /\
    retrieve true [] cloud = ([], cloud) /\
    (forall front rest, retrieve true (front :: rest) cloud = (rest, front)) /\
    (forall oldest later,
        retrieve true (fold_left push (oldest :: later) []) cloud
        = (fold_left push later [], oldest)).
Proof.
  intros q cl. repeat split.
  intros oldest later. rewrite !fold_push. reflexivity.
Qed.

(** * Packet size check *)

Lemma size_mismatch_iff (h : pcap_pkthdr) :
  (len h < 2 ^ 32)%N ->
  size_mismatch h = true <-> (Z.of_N (len h) - 42 <> 1206)%Z.
Proof.
  intros Hlen. unfold size_mismatch.
  assert (Hb : (0 <= Z.of_N (len h) < 2 ^ 32)%Z).
  { split; [lia|]. change (2 ^ 32)%Z with (Z.of_N (2 ^ 32)). lia. }
  rewrite negb_true_iff, Z.eqb_neq.
  destruct (Z_lt_le_dec (Z.of_N (len h)) 42) as [Hs|Hs].
  - replace ((Z.of_N (len h) - 42) mod 2 ^ 32)%Z
      with (Z.of_N (len h) - 42 + 2 ^ 32)%Z.
    + split; intros _; lia.
    + apply Z.mod_unique with (q := (-1)%Z); lia.
  - rewrite Z.mod_small by lia. tauto.
Qed.

(** C9.  A packet whose length minus 42 is not 1206 leaves the state of the
    thread as it was, whatever its payload and capture time, and the loop
    goes on with the packets that follow; the outcome is never [Abort] nor
    [Undefined]. *)
Theorem size_mismatch_discards :
  forall (NDEBUG : bool) (c : VelodyneCapture) (h : pcap_pkthdr)
         (payload : DataPacket) (st : CaptureState),
    (len h < 2 ^ 32)%N ->
    (Z.of_N (len h) - 42 <> 1206)%Z ->
    process_packet NDEBUG c {| header := h; data := payload |} st = Ok st /\
    forall (ret : Z) (rest : list (Z * Packet)),
      (0 < ret)%Z ->
      capture_loop NDEBUG c ((ret, {| header := h; data := payload |}) :: rest) st
      = capture_loop NDEBUG c rest st.
Proof.
  intros NDEBUG c h pl st Hlen Hne.
  assert (Hp : process_packet NDEBUG c {| header := h; data := pl |} st = Ok st).
  { unfold process_packet; simpl.
    now rewrite (proj2 (size_mismatch_iff h Hlen) Hne). }
  split; [exact Hp|].
  intros ret rest Hret. simpl capture_loop.
  destruct (Z.leb_spec ret 0) as [H0|_]; [lia|].
  now rewrite Hp.
Qed.

Lemma size_mismatch_discards_witness :
  process_packet false (HDL32ECapture.ctor 0)
    {| header := pkthdr 10 42 60; data := payload (fun _ => 0%N) 1 0 |}
    initial_state
  = Ok initial_state.
Proof.
  refine (proj1 (size_mismatch_discards false (HDL32ECapture.ctor 0)
                   (pkthdr 10 42 60) (payload (fun _ => 0%N) 1 0)
                   initial_state _ _)).
  - reflexivity.
  - simpl; lia.
Defined.

(** * Timestamp *)

Lemma insert_long_numeral (v : Z) :
  (0 <= v)%Z -> insert_long v = NilEmpty.string_of_uint (numeral v).
Proof.
  intros Hv. unfold insert_long, numeral. destruct v as [|p|p]; [reflexivity| |lia].
  simpl. pose proof (Unsigned.to_uint_nonnil p) as Hn.
  now destruct (Pos.to_uint p).
Qed.

Lemma numeral_value (v : Z) :
  (0 <= v)%Z -> Z.of_N (Unsigned.of_lu (rev (numeral v))) = v.
Proof.
  intros Hv. unfold numeral. destruct v as [|p|p]; [reflexivity| |lia].
  now rewrite <- Unsigned.of_uint_alt, Unsigned.of_to.
Qed.

Lemma numeral_nonnil (v : Z) : numeral v <> Nil.
Proof.
  unfold numeral. destruct v; try discriminate. apply Unsigned.to_uint_nonnil.
Qed.

Lemma usize_length (u : uint) :
  Unsigned.usize u = N.of_nat (String.length (NilEmpty.string_of_uint u)).
Proof.
  induction u; cbn [Unsigned.usize NilEmpty.string_of_uint String.length];
    rewrite ?IHu; lia.
Qed.

(** The value of a numeral with one more leading digit [k]. *)
Lemma of_lu_rev_cons (u : uint) (k : N) (d : uint -> uint) :
  (forall w, Unsigned.of_lu (d w) = k + 10 * Unsigned.of_lu w)%N ->
  (forall w w', revapp (d w) w' = revapp w (d w')) ->
  (Unsigned.of_lu (rev (d u)) = Unsigned.of_lu (rev u) + k * 10 ^ Unsigned.usize u)%N.
Proof.
  intros Hd Hr. unfold rev at 1. rewrite Hr, Unsigned.of_lu_revapp, Hd.
  simpl Unsigned.of_lu. now rewrite N.mul_0_r, N.add_0_r.
Qed.

Ltac leading_digit u :=
  match goal with
  | |- context [rev (?d u)] =>
      rewrite (of_lu_rev_cons u (Unsigned.hd (d Nil)) d) by (intros; reflexivity)
  end.

(** Reading back the digits of a numeral: Horner's rule on the accumulator. *)
Lemma read_digits_uint (u : uint) (s : string) (acc : Z) :
  read_digits (NilEmpty.string_of_uint u ++ s) acc
  = read_digits s
      (acc * 10 ^ Z.of_nat (String.length (NilEmpty.string_of_uint u))
       + Z.of_N (Unsigned.of_lu (rev u)))%Z.
Proof.
  revert acc; induction u; intros acc;
    [ simpl; f_equal; lia | .. ];
    cbn [NilEmpty.string_of_uint String.append read_digits String.length];
    (match goal with
     | |- context [digit_value ?c] =>
         let v := eval vm_compute in (digit_value c) in
         change (digit_value c) with v
     end);
    cbv iota; rewrite IHu; f_equal;
    rewrite Nat2Z.inj_succ, Z.pow_succ_r by lia;
    leading_digit u;
    rewrite usize_length, N2Z.inj_add, N2Z.inj_mul, N2Z.inj_pow, nat_N_Z;
    cbn [Unsigned.hd]; lia.
Qed.

Lemma read_digits_fill (n : nat) (acc : Z) :
  read_digits (fill "0" n) acc = (acc * 10 ^ Z.of_nat n)%Z.
Proof.
  revert acc; induction n as [|n IH]; intros acc.
  - simpl. lia.
  - cbn [fill read_digits].
    change (digit_value "0") with (Some 0%Z). cbv iota.
    rewrite IH, Nat2Z.inj_succ, Z.pow_succ_r by lia. lia.
Qed.

Lemma stoll_unsigned (u : uint) (rest : string) :
  u <> Nil ->
  stoll (NilEmpty.string_of_uint u ++ rest)
  = let v := read_digits (NilEmpty.string_of_uint u ++ rest) 0 in
    if ((LLONG_MIN <=? v) && (v <=? LLONG_MAX))%Z then Ok v else Abort.
Proof.
  intros Hu. destruct u; [contradiction|..]; reflexivity.
Qed.

(** What the thread takes for the Unix time: with [k] characters written for
    the microseconds, the seconds are shifted by [k] digits and the whole by
    the [6 - k] zeros of the fill. *)
Lemma unixtime_value (sec usec : Z) (captured length : N) :
  (0 <= sec)%Z -> (0 <= usec)%Z ->
  let k := usec_digits usec in
  let v := ((sec * 10 ^ Z.of_nat k + usec) * 10 ^ Z.of_nat (6 - k))%Z in
  (v <= LLONG_MAX)%Z ->
  unixtime {| ts := {| tv_sec := sec; tv_usec := usec |};
              caplen := captured; len := length |} = Ok v.
Proof.
  intros Hsec Husec k v Hv.
  unfold unixtime, ss, setw_left_setfill. cbn [ts tv_sec tv_usec].
  fold (usec_digits usec). fold k.
  rewrite (insert_long_numeral sec Hsec).
  rewrite stoll_unsigned by apply numeral_nonnil.
  cbv zeta.
  rewrite read_digits_uint, numeral_value by exact Hsec.
  assert (Hk : k = String.length (NilEmpty.string_of_uint (numeral usec)))
    by (unfold k, usec_digits; now rewrite insert_long_numeral).
  rewrite (insert_long_numeral usec Husec).
  rewrite read_digits_uint, numeral_value by exact Husec.
  rewrite read_digits_fill, <- Hk.
  replace ((0 * 10 ^ Z.of_nat (String.length (NilEmpty.string_of_uint (numeral sec))) + sec)
           * 10 ^ Z.of_nat k + usec)%Z
    with (sec * 10 ^ Z.of_nat k + usec)%Z by lia.
  fold v.
  assert (H0 : (0 <= v)%Z).
  { unfold v. apply Z.mul_nonneg_nonneg; [|apply Z.pow_nonneg; lia].
    apply Z.add_nonneg_nonneg; [|exact Husec].
    apply Z.mul_nonneg_nonneg; [exact Hsec|apply Z.pow_nonneg; lia]. }
  destruct (Z.leb_spec LLONG_MIN v) as [_|Hlo]; [|unfold LLONG_MIN in Hlo; lia].
  destruct (Z.leb_spec v LLONG_MAX) as [_|Hhi]; [reflexivity|lia].
Qed.

Lemma to_uint_normal (p : positive) : unorm (Pos.to_uint p) = Pos.to_uint p.
Proof.
  rewrite <- (Unsigned.to_of (Pos.to_uint p)), Unsigned.of_to. reflexivity.
Qed.

Lemma to_uint_head (p : positive) (u : uint) : Pos.to_uint p <> D0 u.
Proof.
  intros E. pose proof (to_uint_normal p) as Hn. unfold unorm in Hn.
  destruct (nzhead (Pos.to_uint p)) eqn:Hz;
    try (rewrite <- Hn in E; apply (nzhead_nonzero (Pos.to_uint p) u);
         now rewrite Hz).
  symmetry in Hn. now apply Unsigned.to_uint_nonzero in Hn.
Qed.

Lemma of_lu_rev_lt (u : uint) :
  (Unsigned.of_lu (rev u) < 10 ^ Unsigned.usize u)%N.
Proof.
  induction u; [ reflexivity | .. ];
    leading_digit u;
    cbn [Unsigned.usize Unsigned.hd]; rewrite N.pow_succ_r'; lia.
Qed.

Lemma of_lu_rev_ge (u : uint) :
  u <> Nil -> (forall w, u <> D0 w) ->
  (10 ^ N.pred (Unsigned.usize u) <= Unsigned.of_lu (rev u))%N.
Proof.
  intros Hn H0.
  destruct u; [contradiction | exfalso; now apply (H0 u) | ..];
    leading_digit u;
    cbn [Unsigned.usize Unsigned.hd]; rewrite N.pred_succ; lia.
Qed.

(** A positive value is written with [k] characters exactly when it lies
    between [10^(k-1)] and [10^k]. *)
Lemma usec_digits_bounds (v : Z) :
  (0 < v)%Z ->
  (10 ^ (Z.of_nat (usec_digits v) - 1) <= v < 10 ^ Z.of_nat (usec_digits v))%Z.
Proof.
  intros Hv. destruct v as [|p|p]; try lia.
  unfold usec_digits. rewrite insert_long_numeral by lia.
  pose proof (numeral_value (Zpos p) ltac:(lia)) as Hval.
  cbn [numeral] in *.
  pose proof (of_lu_rev_lt (Pos.to_uint p)) as Hlt.
  pose proof (of_lu_rev_ge (Pos.to_uint p) (Unsigned.to_uint_nonnil p)
                (to_uint_head p)) as Hge.
  rewrite usize_length in Hlt, Hge.
  set (n := String.length (NilEmpty.string_of_uint (Pos.to_uint p))) in *.
  assert (Hn : n <> O).
  { unfold n. pose proof (Unsigned.to_uint_nonnil p).
    destruct (Pos.to_uint p); simpl; congruence. }
  apply N2Z.inj_le in Hge. apply N2Z.inj_lt in Hlt.
  rewrite N2Z.inj_pow in Hge, Hlt. rewrite N2Z.inj_pred in Hge by lia.
  rewrite nat_N_Z in Hge, Hlt. rewrite Hval in Hge, Hlt.
  change (Z.of_N 10) with 10%Z in *.
  replace (Z.of_nat n - 1)%Z with (Z.pred (Z.of_nat n)) by lia.
  split; assumption.
Qed.

(** X17.  For a capture time with microseconds below one million, the value
    the thread computes is the Unix time in microseconds exactly when the
    microseconds are 0 or have six digits. *)
Lemma unixtime_microseconds (sec usec : Z) (captured length : N) :
  (0 <= sec < 10 ^ 12)%Z -> (0 <= usec < 10 ^ 6)%Z ->
  exists v,
    unixtime {| ts := {| tv_sec := sec; tv_usec := usec |};
                caplen := captured; len := length |} = Ok v /\
    (v = sec * 10 ^ 6 + usec <-> usec = 0 \/ 100000 <= usec)%Z.
Proof.
  intros Hsec Husec.
  pose proof (unixtime_value sec usec captured length (proj1 Hsec) (proj1 Husec)) as Hv.
  cbv zeta in Hv.
  destruct (Z.eq_dec usec 0) as [->|Hpos].
  - exists (sec * 10 ^ 6 + 0)%Z. split; [|intuition lia].
    rewrite Hv; [f_equal|]; change (usec_digits 0) with 1%nat;
      cbn [Nat.sub Z.of_nat Pos.of_succ_nat Pos.succ]; unfold LLONG_MAX; lia.
  - pose proof (usec_digits_bounds usec ltac:(lia)) as [Hlo Hhi].
    remember (usec_digits usec) as k eqn:Ek.
    assert (Hk : (1 <= k <= 6)%nat).
    { split.
      - destruct k; [simpl in Hhi; lia|lia].
      - destruct (Nat.le_gt_cases k 6) as [H|H]; [exact H|].
        assert (10 ^ 6 <= 10 ^ (Z.of_nat k - 1))%Z
          by (apply Z.pow_le_mono_r; lia).
        lia. }
    exists ((sec * 10 ^ Z.of_nat k + usec) * 10 ^ Z.of_nat (6 - k))%Z.
    destruct k as [|[|[|[|[|[|[|k]]]]]]]; try lia;
      cbn [Nat.sub Z.of_nat Pos.of_succ_nat Pos.succ Z.sub Z.add Z.opp
           Z.pos_sub Pos.pred_double] in *;
      (split; [apply Hv; unfold LLONG_MAX; lia | lia]).
Qed.

(** C5.  With 10 seconds and 42 microseconds the stream holds the text
    [10420000]: the microseconds are left-justified in their field of six,
    so the zeros follow the digits [42], and the value read back is
    10420000, not the Unix time 10000042 in microseconds. *)
Theorem unixtime_left_justified :
  forall (captured length : N),
    ss {| ts := {| tv_sec := 10; tv_usec := 42 |}; caplen := captured; len := length |}
    = "10420000"%string /\
    unixtime {| ts := {| tv_sec := 10; tv_usec := 42 |}; caplen := captured; len := length |}
    = Ok 10420000%Z /\
    (10420000 <> 10 * 10 ^ 6 + 42)%Z.
Proof.
  intros captured length. repeat split. discriminate.
Qed.

(** Full six-digit microseconds and zero microseconds are the cases where
    the text is the Unix time in microseconds. *)
Example unixtime_six_digits :
  unixtime (pkthdr 1500000000 123456 1248) = Ok 1500000000123456%Z /\
  unixtime (pkthdr 1500000000 0 1248) = Ok 1500000000000000%Z /\
  unixtime (pkthdr 1500000000 999 1248) = Ok 1500000000999000%Z.
Proof. repeat split. Qed.

(** * Azimuth interpolation *)

Lemma interpolated_wrap (packet : DataPacket) :
  interpolated packet
  = inject_Z (spec_wrap (Z.of_N (rotationalPosition (firingData packet 1))
                         - Z.of_N (rotationalPosition (firingData packet 0)))) / 2.
Proof.
  unfold interpolated, spec_wrap.
  set (rp0 := Z.of_N (rotationalPosition (firingData packet 0))).
  set (rp1 := Z.of_N (rotationalPosition (firingData packet 1))).
  destruct (Z.ltb_spec rp1 rp0) as [Hlt|Hge];
    destruct (Z.ltb_spec (rp1 - rp0) 0) as [Hd|Hd]; try lia.
  - now replace (rp1 + 36000 - rp0)%Z with (rp1 - rp0 + 36000)%Z by lia.
  - reflexivity.
Qed.

(** What [process_packet] runs on a packet that passes the checks: one value
    of [interpolated] serves all twelve firing blocks. *)
Lemma process_packet_checked (NDEBUG : bool) (c : VelodyneCapture) (p : Packet)
  (st : CaptureState) (t : Z) :
  size_mismatch (header p) = false ->
  unixtime (header p) = Ok t ->
  NDEBUG = true \/ sensorType_accepted (data p) = true ->
  process_packet NDEBUG c p st
  = for_loop 12 0
      (fun firing_index =>
         for_loop 32 0
           (process_slot c t (interpolated (data p)) (firingData (data p) firing_index)))
      st.
Proof.
  intros Hsize Ht Hs. unfold process_packet. rewrite Hsize, Ht. simpl bind.
  replace (negb NDEBUG && negb (sensorType_accepted (data p))) with false.
  - reflexivity.
  - destruct Hs as [-> | ->]; [reflexivity | now rewrite andb_false_r].
Qed.

(** C4.  [interpolated] is half the difference of the rotational positions
    of blocks 1 and 0, 36000 being added to a negative difference; positions
    35900 and 100 give 100; a checked packet is processed with this one
    value; and a slot's azimuth is the block's position for a slot below
    [MAX_NUM_LASERS], the position plus [interpolated] for a slot at or past
    it (less 36000 when the sum reaches 36000). *)
Theorem interpolated_azimuth_advance :
  forall (c : VelodyneCapture) (p : Packet),
    let rp0 := Z.of_N (rotationalPosition (firingData (data p) 0)) in
    let rp1 := Z.of_N (rotationalPosition (firingData (data p) 1)) in
    interpolated (data p) = inject_Z (spec_wrap (rp1 - rp0)) / 2 /\
    (rp0 = 35900%Z -> rp1 = 100%Z -> interpolated (data p) == 100) /\
    (forall NDEBUG st t,
        size_mismatch (header p) = false ->
        unixtime (header p) = Ok t ->
        NDEBUG = true \/ sensorType_accepted (data p) = true ->
        process_packet NDEBUG c p st
        = for_loop 12 0
            (fun firing_index =>
               for_loop 32 0
                 (process_slot c t (interpolated (data p))
                    (firingData (data p) firing_index)))
            st) /\
    (forall firing_data laser_index,
        let position := inject_Z (Z.of_N (rotationalPosition firing_data)) in
        ((laser_index < MAX_NUM_LASERS c)%nat ->
         slot_azimuth c (interpolated (data p)) firing_data laser_index
         = if Qle_bool 36000 position then position - 36000 else position) /\
        ((MAX_NUM_LASERS c <= laser_index)%nat ->
         slot_azimuth c (interpolated (data p)) firing_data laser_index
         = if Qle_bool 36000 (position + interpolated (data p))
           then position + interpolated (data p) - 36000
           else position + interpolated (data p))).
Proof.
  intros c p rp0 rp1. split; [apply interpolated_wrap|]. split; [|split].
  - intros H0 H1. rewrite interpolated_wrap. fold rp0 rp1. rewrite H0, H1.
    reflexivity.
  - intros NDEBUG st t. apply process_packet_checked.
  - intros firing_data laser_index position. unfold slot_azimuth. fold position.
    split; intros Hj.
    + destruct (Nat.leb_spec (MAX_NUM_LASERS c) laser_index); [lia|reflexivity].
    + destruct (Nat.leb_spec (MAX_NUM_LASERS c) laser_index); [reflexivity|lia].
Qed.

Lemma interpolated_azimuth_advance_witness :
  interpolated (payload wrap_positions 1 0x22) == 100.
Proof.
  refine (proj1 (proj2 (interpolated_azimuth_advance (VLP16Capture.ctor 0)
    {| header := pkthdr 10 42 1248; data := payload wrap_positions 1 0x22 |})) _ _);
    reflexivity.
Defined.

(** * One laser slot *)

Lemma calibrated_spec (c : VelodyneCapture) :
  calibrated c = true ->
  (0 < MAX_NUM_LASERS c)%nat /\
  (MAX_NUM_LASERS c <= List.length (lut_cos c))%nat /\
  (MAX_NUM_LASERS c <= List.length (lut_sin c))%nat.
Proof.
  unfold calibrated. rewrite !andb_true_iff.
  intros [[H0 H1] H2].
  apply Nat.ltb_lt in H0. apply Nat.leb_le in H1. apply Nat.leb_le in H2.
  auto.
Qed.

Lemma calibrated_VLP16 (indeterminate : nat) :
  calibrated (VLP16Capture.ctor indeterminate) = true.
Proof. reflexivity. Qed.

Lemma nth_error_in_range {A : Type} (l : list A) (n : nat) :
  (n < List.length l)%nat -> exists a, nth_error l n = Some a.
Proof.
  intros H. destruct (nth_error l n) as [a|] eqn:E; [now exists a|].
  apply nth_error_None in E. lia.
Qed.

Lemma reconstruct_total (c : VelodyneCapture) (r : LaserReturn) (m : nat) (azimuth : Q) :
  calibrated c = true -> (m < MAX_NUM_LASERS c)%nat ->
  exists p, reconstruct c r m azimuth = Ok p.
Proof.
  intros Hc Hm. destruct (calibrated_spec c Hc) as (_ & Hcos & Hsin).
  destruct (nth_error_in_range (lut_cos c) m) as [vc Ec]; [lia|].
  destruct (nth_error_in_range (lut_sin c) m) as [vs Es]; [lia|].
  unfold reconstruct. rewrite Ec, Es.
  destruct (transformMatrixPtr c); eauto.
Qed.

Lemma below_epsilon_iff (r : LaserReturn) :
  below_epsilon r = true <-> distance r = 0%N.
Proof.
  unfold below_epsilon, Qlt_bool, EPSILON.
  rewrite negb_true_iff, <- not_true_iff_false, Qle_bool_iff.
  unfold Qle; simpl. split.
  - intros H. destruct (distance r) as [|d]; [reflexivity|]. exfalso. apply H. simpl. lia.
  - intros ->. simpl. lia.
Qed.

Lemma below_epsilon_false (r : LaserReturn) :
  below_epsilon r = false <-> distance r <> 0%N.
Proof.
  rewrite <- below_epsilon_iff. now destruct (below_epsilon r).
Qed.

Lemma Qlt_bool_iff (a b : Q) : Qlt_bool a b = true <-> a < b.
Proof.
  unfold Qlt_bool. rewrite negb_true_iff, <- not_true_iff_false, Qle_bool_iff.
  split; [apply Qnot_le_lt | apply Qlt_not_le].
Qed.

Lemma Qlt_bool_false (a b : Q) : Qlt_bool a b = false <-> b <= a.
Proof.
  unfold Qlt_bool. rewrite negb_false_iff. apply Qle_bool_iff.
Qed.

(** The slot whose return is filtered: only the rotation test has run. *)
Lemma process_slot_filtered (c : VelodyneCapture) (t : Z) (i : Q) (fd : FiringData)
  (j : nat) (st : CaptureState) :
  MAX_NUM_LASERS c <> O ->
  below_epsilon (laserReturns fd (j mod MAX_NUM_LASERS c)) = true ->
  process_slot c t i fd j st
  = Ok (complete_rotation t (slot_azimuth c i fd j) st).
Proof.
  intros Hm Hd. unfold process_slot.
  destruct (Nat.eqb_spec (MAX_NUM_LASERS c) 0) as [E|_]; [contradiction|].
  now rewrite Hd.
Qed.

(** The slot whose return is kept: rotation test, then one point. *)
Lemma process_slot_emits (c : VelodyneCapture) (t : Z) (i : Q) (fd : FiringData)
  (j : nat) (st : CaptureState) (p : PointT) :
  MAX_NUM_LASERS c <> O ->
  below_epsilon (laserReturns fd (j mod MAX_NUM_LASERS c)) = false ->
  reconstruct c (laserReturns fd (j mod MAX_NUM_LASERS c))
    (j mod MAX_NUM_LASERS c) (slot_azimuth c i fd j) = Ok p ->
  process_slot c t i fd j st
  = Ok {| last_azimuth := slot_azimuth c i fd j;
          cloud := push_back (cloud (complete_rotation t (slot_azimuth c i fd j) st)) p;
          queue := queue (complete_rotation t (slot_azimuth c i fd j) st) |}.
Proof.
  intros Hm Hd Hp. unfold process_slot.
  destruct (Nat.eqb_spec (MAX_NUM_LASERS c) 0) as [E|_]; [contradiction|].
  now rewrite Hd, Hp.
Qed.

Lemma total_points_complete_rotation (t : Z) (azimuth : Q) (st : CaptureState) :
  total_points (complete_rotation t azimuth st) = total_points st.
Proof.
  unfold complete_rotation, total_points.
  destruct (Qlt_bool azimuth (last_azimuth st)); [|reflexivity].
  simpl. rewrite map_app, list_sum_app. simpl. lia.
Qed.

(** * Distance filter *)

(** A slot reads the return [laserReturns[laser_index % MAX_NUM_LASERS]].
    The comparison with [EPSILON] holds exactly when the raw distance is 0;
    the slot then adds no point, and it adds exactly one point when the raw
    distance is not 0 (1 included). *)
Theorem epsilon_filter :
  forall (c : VelodyneCapture) (t : Z) (i : Q) (fd : FiringData) (j : nat)
         (st : CaptureState),
    calibrated c = true ->
    let r := laserReturns fd (j mod MAX_NUM_LASERS c) in
    (below_epsilon r = true <-> distance r = 0%N) /\
    exists st',
      process_slot c t i fd j st = Ok st' /\
      (distance r = 0%N -> total_points st' = total_points st) /\
      (distance r = 1%N -> total_points st' = S (total_points st)) /\
      (total_points st' = S (total_points st) <-> distance r <> 0%N).
Proof.
  intros c t i fd j st Hc r.
  destruct (calibrated_spec c Hc) as (Hpos & _).
  assert (Hm : MAX_NUM_LASERS c <> O) by lia.
  split; [apply below_epsilon_iff|].
  destruct (below_epsilon r) eqn:Hd.
  - exists (complete_rotation t (slot_azimuth c i fd j) st).
    apply below_epsilon_iff in Hd.
    rewrite total_points_complete_rotation.
    split; [apply process_slot_filtered; [exact Hm | now apply below_epsilon_iff]|].
    fold r. rewrite Hd. repeat split; try discriminate; try lia; intros; try lia.
  - destruct (reconstruct_total c r (j mod MAX_NUM_LASERS c) (slot_azimuth c i fd j) Hc)
      as [p Hp]; [now apply Nat.mod_upper_bound|].
    eexists. split; [apply (process_slot_emits c t i fd j st p Hm Hd Hp)|].
    assert (Hn : distance r <> 0%N) by now apply below_epsilon_false.
    assert (Ht : total_points
                   {| last_azimuth := slot_azimuth c i fd j;
                      cloud := push_back (cloud (complete_rotation t (slot_azimuth c i fd j) st)) p;
                      queue := queue (complete_rotation t (slot_azimuth c i fd j) st) |}
                 = S (total_points st)).
    { rewrite <- (total_points_complete_rotation t (slot_azimuth c i fd j) st).
      unfold total_points; simpl. rewrite length_app; simpl. lia. }
    rewrite Ht. repeat split; auto. intros E; contradiction.
Qed.

Lemma epsilon_filter_witness :
  calibrated (VLP16Capture.ctor 0) = true /\
  exists st',
    process_slot (VLP16Capture.ctor 0) 10420000 50 (block 100 (fun _ => echo 1)) 0
      initial_state = Ok st' /\
    total_points st' = 1%nat.
Proof.
  split; [reflexivity|].
  destruct (epsilon_filter (VLP16Capture.ctor 0) 10420000 50
              (block 100 (fun _ => echo 1)) 0 initial_state)
    as (_ & st' & Hrun & _ & Hone & _); [reflexivity|].
  exists st'. split; [exact Hrun|]. apply Hone. reflexivity.
Defined.

(** * Point reconstruction *)




Example slot_azimuth_second_half :
  slot_azimuth (VLP16Capture.ctor 0) 50 (block 100 (fun _ => echo 5)) 17 == 150.
Proof. reflexivity. Qed.

(** * The thread over whole packets *)

Lemma process_slots_app (c : VelodyneCapture) (t : Z) (i : Q)
  (l1 l2 : list (FiringData * nat)) (st : CaptureState) :
  process_slots c t i (l1 ++ l2) st
  = (st' <- process_slots c t i l1 st ;; process_slots c t i l2 st').
Proof.
  revert st; induction l1 as [|[fd j] l1 IH]; intros st; simpl; [reflexivity|].
  destruct (process_slot c t i fd j st); simpl; auto.
Qed.

Lemma process_firing_slots (c : VelodyneCapture) (t : Z) (i : Q) (fd : FiringData)
  (n start : nat) (st : CaptureState) :
  for_loop n start (process_slot c t i fd) st
  = process_slots c t i (map (fun j => (fd, j)) (seq start n)) st.
Proof.
  revert start st; induction n as [|n IH]; intros start st; simpl; [reflexivity|].
  destruct (process_slot c t i fd start st); simpl; auto.
Qed.

Lemma process_firings_loop (c : VelodyneCapture) (t : Z) (packet : DataPacket)
  (n start : nat) (st : CaptureState) :
  for_loop n start
    (fun firing_index =>
       process_firing c t (interpolated packet) (firingData packet firing_index)) st
  = process_slots c t (interpolated packet)
      (flat_map (fun firing_index =>
                   map (fun laser_index => (firingData packet firing_index, laser_index))
                     (seq 0 LASER_PER_FIRING))
         (seq start n)) st.
Proof.
  revert start st; induction n as [|n IH]; intros start st;
    cbn [for_loop seq flat_map]; [reflexivity|].
  rewrite process_slots_app. unfold process_firing at 1.
  rewrite process_firing_slots.
  destruct (process_slots c t (interpolated packet)
              (map (fun j => (firingData packet start, j)) (seq 0 LASER_PER_FIRING)) st);
    cbn [bind]; auto.
Qed.

Lemma process_firings_slots (c : VelodyneCapture) (t : Z) (packet : DataPacket)
  (st : CaptureState) :
  process_firings c t packet st
  = process_slots c t (interpolated packet) (packet_slots packet) st.
Proof. apply process_firings_loop. Qed.

(** A packet that passes the checks is the run of its 384 slots, stamped
    with the value read from its capture time. *)
Lemma process_packet_slots (NDEBUG : bool) (c : VelodyneCapture) (p : Packet)
  (st : CaptureState) (t : Z) :
  size_mismatch (header p) = false ->
  unixtime (header p) = Ok t ->
  NDEBUG = true \/ sensorType_accepted (data p) = true ->
  process_packet NDEBUG c p st
  = process_slots c t (interpolated (data p)) (packet_slots (data p)) st.
Proof.
  intros Hsize Ht Hs. unfold process_packet. rewrite Hsize, Ht. cbn [bind].
  replace (negb NDEBUG && negb (sensorType_accepted (data p))) with false.
  - apply process_firings_slots.
  - destruct Hs as [-> | ->]; [reflexivity | now rewrite andb_false_r].
Qed.

(** * Rotation boundaries *)

Lemma slot_azimuth_slot0 (c : VelodyneCapture) (i : Q) (rp : N)
  (lr : nat -> LaserReturn) :
  calibrated c = true -> (rp < 36000)%N ->
  slot_azimuth c i (block rp lr) 0 = inject_Z (Z.of_N rp).
Proof.
  intros Hc Hrp. destruct (calibrated_spec c Hc) as (Hpos & _).
  unfold slot_azimuth. simpl rotationalPosition.
  destruct (Nat.leb_spec (MAX_NUM_LASERS c) 0) as [H|_]; [lia|].
  destruct (Qle_bool 36000 (inject_Z (Z.of_N rp))) eqn:E; [|reflexivity].
  apply Qle_bool_iff in E. unfold Qle in E; simpl in E. lia.
Qed.

(** Slot 0 of a block with a valid position and a kept return. *)
Lemma process_slot_slot0 (c : VelodyneCapture) (t : Z) (i : Q) (rp : N)
  (lr : nat -> LaserReturn) (st : CaptureState) :
  calibrated c = true -> (rp < 36000)%N -> distance (lr O) <> 0%N ->
  exists p,
    reconstruct c (lr O) 0 (inject_Z (Z.of_N rp)) = Ok p /\
    process_slot c t i (block rp lr) 0 st
    = Ok {| last_azimuth := inject_Z (Z.of_N rp);
            cloud := push_back (cloud (complete_rotation t (inject_Z (Z.of_N rp)) st)) p;
            queue := queue (complete_rotation t (inject_Z (Z.of_N rp)) st) |}.
Proof.
  intros Hc Hrp Hd. destruct (calibrated_spec c Hc) as (Hpos & _).
  destruct (reconstruct_total c (lr O) 0 (inject_Z (Z.of_N rp)) Hc Hpos) as [p Hp].
  exists p. split; [exact Hp|].
  rewrite <- (slot_azimuth_slot0 c i rp lr Hc Hrp).
  assert (H0 : (0 mod MAX_NUM_LASERS c = 0)%nat) by (apply Nat.mod_small; lia).
  apply process_slot_emits.
  - lia.
  - rewrite H0. now apply below_epsilon_false.
  - rewrite H0. simpl laserReturns. now rewrite slot_azimuth_slot0.
Qed.

Lemma process_slot_total (c : VelodyneCapture) (t : Z) (i : Q) (fd : FiringData)
  (j : nat) (st : CaptureState) :
  calibrated c = true ->
  exists st', process_slot c t i fd j st = Ok st'.
Proof.
  intros Hc. destruct (calibrated_spec c Hc) as (Hpos & _).
  destruct (below_epsilon (laserReturns fd (j mod MAX_NUM_LASERS c))) eqn:Hd.
  - eexists. apply process_slot_filtered; [lia | exact Hd].
  - destruct (reconstruct_total c (laserReturns fd (j mod MAX_NUM_LASERS c))
                (j mod MAX_NUM_LASERS c) (slot_azimuth c i fd j) Hc) as [p Hp];
      [apply Nat.mod_upper_bound; lia|].
    eexists. apply process_slot_emits; [lia | exact Hd | exact Hp].
Qed.

Lemma width_small (n : nat) :
  (Z.of_nat n < 2 ^ 32)%Z -> (Z.of_nat n mod 2 ^ 32 = Z.of_nat n)%Z.
Proof. intros H. apply Z.mod_small. lia. Qed.

(** At every slot: when [last_azimuth] exceeds the slot's azimuth, the
    frame in progress is stamped with the packet's [unixtime], its [width]
    set to its number of points, and it is pushed at the back of the queue;
    the new frame then holds the current return's point and nothing else
    (no point when the return is filtered); without the excess nothing is
    pushed.  The stamp [t] is the value read from the capture time of the
    packet the slot belongs to.  For slots with azimuths 100, 200, 350, 50,
    120 and returns that pass the filter, the queue is empty after three
    slots, holds exactly the frame of the first three points after the
    fourth, and is the same after the fifth, whose frame in progress holds
    the fourth and fifth points. *)
Theorem rotation_complete :
  forall (c : VelodyneCapture) (t : Z) (i : Q),
    calibrated c = true ->
    (forall (fd : FiringData) (j : nat) (st : CaptureState),
        let azimuth := slot_azimuth c i fd j in
        let r := laserReturns fd (j mod MAX_NUM_LASERS c) in
        (Z.of_nat (List.length (points (cloud st))) < 2 ^ 32)%Z ->
        exists st',
          process_slot c t i fd j st = Ok st' /\
          (azimuth < last_azimuth st ->
           queue st'
           = (queue st ++ [Some {| stamp := t;
                                   width := Z.of_nat (List.length (points (cloud st)));
                                   height := 1;
                                   points := points (cloud st) |}])%list /\
           (distance r = 0%N -> points (cloud st') = []) /\
           (distance r <> 0%N ->
            exists p, reconstruct c r (j mod MAX_NUM_LASERS c) azimuth = Ok p /\
                      points (cloud st') = [p])) /\
          (last_azimuth st <= azimuth ->
           queue st' = queue st /\
           (distance r = 0%N -> cloud st' = cloud st) /\
           (distance r <> 0%N ->
            exists p, reconstruct c r (j mod MAX_NUM_LASERS c) azimuth = Ok p /\
                      points (cloud st') = (points (cloud st) ++ [p])%list))) /\
    (forall (NDEBUG : bool) (p : Packet) (st : CaptureState),
        size_mismatch (header p) = false ->
        unixtime (header p) = Ok t ->
        NDEBUG = true \/ sensorType_accepted (data p) = true ->
        process_packet NDEBUG c p st
        = process_slots c t (interpolated (data p)) (packet_slots (data p)) st) /\
    (forall lr1 lr2 lr3 lr4 lr5 : nat -> LaserReturn,
        distance (lr1 O) <> 0%N -> distance (lr2 O) <> 0%N ->
        distance (lr3 O) <> 0%N -> distance (lr4 O) <> 0%N ->
        distance (lr5 O) <> 0%N ->
        exists p1 p2 p3 p4 p5 : PointT,
          process_slots c t i
            [(block 100 lr1, O); (block 200 lr2, O); (block 350 lr3, O)] initial_state
          = Ok {| last_azimuth := 350;
                  cloud := {| stamp := 0; width := 0; height := 0;
                              points := [p1; p2; p3] |};
                  queue := [] |} /\
          process_slots c t i
            [(block 100 lr1, O); (block 200 lr2, O); (block 350 lr3, O);
             (block 50 lr4, O)] initial_state
          = Ok {| last_azimuth := 50;
                  cloud := {| stamp := 0; width := 0; height := 0; points := [p4] |};
                  queue := [Some {| stamp := t; width := 3; height := 1;
                                    points := [p1; p2; p3] |}] |} /\
          process_slots c t i
            [(block 100 lr1, O); (block 200 lr2, O); (block 350 lr3, O);
             (block 50 lr4, O); (block 120 lr5, O)] initial_state
          = Ok {| last_azimuth := 120;
                  cloud := {| stamp := 0; width := 0; height := 0;
                              points := [p4; p5] |};
                  queue := [Some {| stamp := t; width := 3; height := 1;
                                    points := [p1; p2; p3] |}] |}).
Proof.
  intros c t i Hc. destruct (calibrated_spec c Hc) as (Hpos & _).
  assert (Hm : MAX_NUM_LASERS c <> O) by lia.
  split.
  - intros fd j st azimuth r Hw.
    destruct (below_epsilon r) eqn:Hd.
    + exists (complete_rotation t azimuth st).
      split; [now apply process_slot_filtered|].
      apply below_epsilon_iff in Hd.
      unfold complete_rotation. split.
      * intros Hlt. apply Qlt_bool_iff in Hlt. rewrite Hlt. simpl.
        unfold finalize. rewrite (width_small _ Hw).
        repeat split; auto. intros Hn; contradiction.
      * intros Hle. apply Qlt_bool_false in Hle. rewrite Hle.
        repeat split; auto. intros Hn; contradiction.
    + destruct (reconstruct_total c r (j mod MAX_NUM_LASERS c) azimuth Hc) as [p Hp];
        [now apply Nat.mod_upper_bound|].
      eexists. split; [apply (process_slot_emits c t i fd j st p Hm Hd Hp)|].
      apply below_epsilon_false in Hd. fold azimuth.
      unfold complete_rotation. split.
      * intros Hlt. apply Qlt_bool_iff in Hlt. rewrite Hlt. simpl.
        unfold finalize. rewrite (width_small _ Hw).
        repeat split; auto; [intros E; contradiction|].
        intros _. exists p. split; [exact Hp|reflexivity].
      * intros Hle. apply Qlt_bool_false in Hle. rewrite Hle. simpl.
        repeat split; auto; [intros E; contradiction|].
        intros _. exists p. split; [exact Hp|reflexivity].
  - split; [intros NDEBUG p st; apply process_packet_slots|].
    intros lr1 lr2 lr3 lr4 lr5 H1 H2 H3 H4 H5.
    assert (Hstep : forall rp lr st, (rp < 36000)%N -> distance (lr O) <> 0%N ->
               exists p, process_slot c t i (block rp lr) 0 st
                 = Ok {| last_azimuth := inject_Z (Z.of_N rp);
                         cloud := push_back (cloud (complete_rotation t (inject_Z (Z.of_N rp)) st)) p;
                         queue := queue (complete_rotation t (inject_Z (Z.of_N rp)) st) |}).
    { intros rp lr st Hrp Hd.
      destruct (process_slot_slot0 c t i rp lr st Hc Hrp Hd) as (p & _ & Hp).
      now exists p. }
    set (s1 p1 := {| last_azimuth := 100;
                     cloud := {| stamp := 0; width := 0; height := 0; points := [p1] |};
                     queue := [] |}).
    set (s2 p1 p2 := {| last_azimuth := 200;
                        cloud := {| stamp := 0; width := 0; height := 0;
                                    points := [p1; p2] |};
                        queue := [] |}).
    set (s3 p1 p2 p3 := {| last_azimuth := 350;
                           cloud := {| stamp := 0; width := 0; height := 0;
                                       points := [p1; p2; p3] |};
                           queue := [] |}).
    set (s4 p1 p2 p3 p4 :=
           {| last_azimuth := 50;
              cloud := {| stamp := 0; width := 0; height := 0; points := [p4] |};
              queue := [Some {| stamp := t; width := 3; height := 1;
                                points := [p1; p2; p3] |}] |}).
    destruct (Hstep 100%N lr1 initial_state) as [p1 E1]; [reflexivity|exact H1|].
    change (process_slot c t i (block 100 lr1) 0 initial_state = Ok (s1 p1)) in E1.
    destruct (Hstep 200%N lr2 (s1 p1)) as [p2 E2]; [reflexivity|exact H2|].
    change (process_slot c t i (block 200 lr2) 0 (s1 p1) = Ok (s2 p1 p2)) in E2.
    destruct (Hstep 350%N lr3 (s2 p1 p2)) as [p3 E3]; [reflexivity|exact H3|].
    change (process_slot c t i (block 350 lr3) 0 (s2 p1 p2) = Ok (s3 p1 p2 p3)) in E3.
    destruct (Hstep 50%N lr4 (s3 p1 p2 p3)) as [p4 E4]; [reflexivity|exact H4|].
    change (process_slot c t i (block 50 lr4) 0 (s3 p1 p2 p3) = Ok (s4 p1 p2 p3 p4)) in E4.
    destruct (Hstep 120%N lr5 (s4 p1 p2 p3 p4)) as [p5 E5]; [reflexivity|exact H5|].
    exists p1, p2, p3, p4, p5.
    repeat split; simpl process_slots;
      rewrite E1; simpl bind; rewrite E2; simpl bind; rewrite E3; simpl bind;
      try (rewrite E4; simpl bind); try (rewrite E5; simpl bind); reflexivity.
Qed.

Lemma rotation_complete_witness :
  calibrated (VLP16Capture.ctor 0) = true /\
  exists p1 p2 p3 p4 p5 : PointT,
    process_slots (VLP16Capture.ctor 0) 10420000 50
      [(block 100 (fun _ => echo 1), O); (block 200 (fun _ => echo 1), O);
       (block 350 (fun _ => echo 1), O); (block 50 (fun _ => echo 1), O);
       (block 120 (fun _ => echo 1), O)] initial_state
    = Ok {| last_azimuth := 120;
            cloud := {| stamp := 0; width := 0; height := 0; points := [p4; p5] |};
            queue := [Some {| stamp := 10420000; width := 3; height := 1;
                              points := [p1; p2; p3] |}] |}.
Proof.
  split; [reflexivity|].
  destruct (rotation_complete (VLP16Capture.ctor 0) 10420000 50 eq_refl)
    as (_ & _ & Hseq).
  destruct (Hseq (fun _ => echo 1) (fun _ => echo 1) (fun _ => echo 1)
              (fun _ => echo 1) (fun _ => echo 1))
    as (p1 & p2 & p3 & p4 & p5 & _ & _ & H5); try discriminate.
  exists p1, p2, p3, p4, p5. exact H5.
Defined.

(** * [last_azimuth] over runs of slots *)

Lemma process_slots_total (c : VelodyneCapture) (t : Z) (i : Q)
  (slots : list (FiringData * nat)) (st : CaptureState) :
  calibrated c = true ->
  exists st', process_slots c t i slots st = Ok st'.
Proof.
  intros Hc. revert st; induction slots as [|[fd j] slots IH]; intros st; simpl.
  - now exists st.
  - destruct (process_slot_total c t i fd j st Hc) as [st1 E1].
    rewrite E1. simpl. apply IH.
Qed.

Lemma last_cons_default {A : Type} (a d : A) (l : list A) :
  last (a :: l) d = last l a.
Proof.
  revert a d; induction l as [|b l IH]; intros a d; [reflexivity|].
  change (last (a :: b :: l) d) with (last (b :: l) d).
  now rewrite !(IH b).
Qed.

Lemma last_app_default {A : Type} (l1 l2 : list A) (d : A) :
  last (l1 ++ l2) d = last l2 (last l1 d).
Proof.
  revert d; induction l1 as [|a l1 IH]; intros d; [reflexivity|].
  rewrite <- app_comm_cons, !last_cons_default. apply IH.
Qed.

(** What one slot does to [last_azimuth] and to the number of points. *)
Lemma process_slot_last_azimuth (c : VelodyneCapture) (t : Z) (i : Q)
  (fd : FiringData) (j : nat) (st st' : CaptureState) :
  MAX_NUM_LASERS c <> O ->
  process_slot c t i fd j st = Ok st' ->
  last_azimuth st' = last (emitted_azimuths c i [(fd, j)]) (last_azimuth st) /\
  total_points st'
  = (total_points st + List.length (emitted_azimuths c i [(fd, j)]))%nat.
Proof.
  intros Hm Hrun. unfold emitted_azimuths, kept. cbn [filter fst snd].
  destruct (below_epsilon (laserReturns fd (j mod MAX_NUM_LASERS c))) eqn:Hd;
    cbn [negb map last List.length].
  - rewrite (process_slot_filtered c t i fd j st Hm Hd) in Hrun.
    injection Hrun as <-. rewrite total_points_complete_rotation.
    split; [|lia]. unfold complete_rotation.
    now destruct (Qlt_bool (slot_azimuth c i fd j) (last_azimuth st)).
  - unfold process_slot in Hrun.
    destruct (Nat.eqb_spec (MAX_NUM_LASERS c) 0) as [E|_]; [contradiction|].
    rewrite Hd in Hrun.
    destruct (reconstruct c (laserReturns fd (j mod MAX_NUM_LASERS c))
                (j mod MAX_NUM_LASERS c) (slot_azimuth c i fd j)) as [p| |];
      try discriminate.
    simpl in Hrun. injection Hrun as <-. split; [reflexivity|].
    rewrite <- (total_points_complete_rotation t (slot_azimuth c i fd j) st).
    unfold total_points; simpl. rewrite length_app; simpl. lia.
Qed.

Lemma emitted_azimuths_cons (c : VelodyneCapture) (i : Q) (slot : FiringData * nat)
  (slots : list (FiringData * nat)) :
  emitted_azimuths c i (slot :: slots)
  = (emitted_azimuths c i [slot] ++ emitted_azimuths c i slots)%list.
Proof.
  unfold emitted_azimuths. cbn [filter].
  destruct (kept c slot); reflexivity.
Qed.

Lemma process_slots_last_azimuth (c : VelodyneCapture) (t : Z) (i : Q)
  (slots : list (FiringData * nat)) (st st' : CaptureState) :
  MAX_NUM_LASERS c <> O ->
  process_slots c t i slots st = Ok st' ->
  last_azimuth st' = last (emitted_azimuths c i slots) (last_azimuth st) /\
  total_points st'
  = (total_points st + List.length (emitted_azimuths c i slots))%nat.
Proof.
  intros Hm. revert st; induction slots as [|[fd j] slots IH]; intros st Hrun.
  - simpl in Hrun. injection Hrun as <-. simpl. split; [reflexivity|lia].
  - simpl in Hrun.
    destruct (process_slot c t i fd j st) as [st1| |] eqn:E1; try discriminate.
    simpl in Hrun.
    destruct (process_slot_last_azimuth c t i fd j st st1 Hm E1) as [Ha Hn].
    destruct (IH st1 Hrun) as [Ha' Hn'].
    rewrite emitted_azimuths_cons, last_app_default, length_app.
    rewrite Ha', Hn', Ha, Hn. split; [reflexivity|lia].
Qed.

Lemma process_packet_last_azimuth (NDEBUG : bool) (c : VelodyneCapture) (p : Packet)
  (st st' : CaptureState) :
  MAX_NUM_LASERS c <> O ->
  process_packet NDEBUG c p st = Ok st' ->
  let emitted :=
    if size_mismatch (header p) then []
    else emitted_azimuths c (interpolated (data p)) (packet_slots (data p)) in
  last_azimuth st' = last emitted (last_azimuth st) /\
  total_points st' = (total_points st + List.length emitted)%nat.
Proof.
  intros Hm Hrun emitted. unfold emitted, process_packet in *.
  destruct (size_mismatch (header p)).
  - injection Hrun as <-. simpl. split; [reflexivity|lia].
  - destruct (unixtime (header p)) as [t| |]; try discriminate.
    simpl in Hrun.
    destruct (negb NDEBUG && negb (sensorType_accepted (data p))); try discriminate.
    rewrite process_firings_slots in Hrun.
    now apply process_slots_last_azimuth with (t := t).
Qed.

Lemma capture_loop_last_azimuth (NDEBUG : bool) (c : VelodyneCapture)
  (stream : list (Z * Packet)) (st st' : CaptureState) :
  MAX_NUM_LASERS c <> O ->
  capture_loop NDEBUG c stream st = Ok st' ->
  last_azimuth st' = last (stream_azimuths c stream) (last_azimuth st) /\
  total_points st' = (total_points st + List.length (stream_azimuths c stream))%nat.
Proof.
  intros Hm. revert st; induction stream as [|[ret p] stream IH]; intros st Hrun.
  - simpl in Hrun. injection Hrun as <-. simpl. split; [reflexivity|lia].
  - simpl in Hrun. cbn [stream_azimuths].
    destruct (ret <=? 0)%Z.
    + injection Hrun as <-. simpl. split; [reflexivity|lia].
    + destruct (process_packet NDEBUG c p st) as [st1| |] eqn:E1; try discriminate.
      simpl in Hrun.
      destruct (process_packet_last_azimuth NDEBUG c p st st1 Hm E1) as [Ha Hn].
      destruct (IH st1 Hrun) as [Ha' Hn'].
      rewrite last_app_default, length_app, Ha', Hn', Ha, Hn.
      split; [reflexivity|lia].
Qed.

Lemma process_packet_total (NDEBUG : bool) (c : VelodyneCapture) (p : Packet)
  (st : CaptureState) :
  calibrated c = true -> checked NDEBUG p = true ->
  exists st', process_packet NDEBUG c p st = Ok st'.
Proof.
  intros Hc Hp. unfold checked in Hp. unfold process_packet.
  destruct (size_mismatch (header p)); [now exists st|].
  simpl in Hp. destruct (unixtime (header p)) as [t| |]; try discriminate.
  simpl in Hp. simpl bind.
  replace (negb NDEBUG && negb (sensorType_accepted (data p))) with false
    by (destruct NDEBUG, (sensorType_accepted (data p)); simpl in *; congruence).
  rewrite process_firings_slots. now apply process_slots_total.
Qed.

Lemma capture_loop_total (NDEBUG : bool) (c : VelodyneCapture)
  (stream : list (Z * Packet)) (st : CaptureState) :
  calibrated c = true ->
  forallb (checked NDEBUG) (map snd stream) = true ->
  exists st', capture_loop NDEBUG c stream st = Ok st'.
Proof.
  intros Hc. revert st; induction stream as [|[ret p] stream IH]; intros st Hs.
  - now exists st.
  - simpl in Hs. apply andb_true_iff in Hs as [Hp Hs]. simpl.
    destruct (ret <=? 0)%Z; [now exists st|].
    destruct (process_packet_total NDEBUG c p st Hc Hp) as [st1 E1].
    rewrite E1. simpl. now apply IH.
Qed.

(** * The first frame *)

Lemma position_nonneg (n : N) : 0 <= inject_Z (Z.of_N n).
Proof. unfold Qle; simpl. lia. Qed.

Lemma slot_azimuth_nonneg (c : VelodyneCapture) (i : Q) (fd : FiringData) (j : nat) :
  0 <= i -> 0 <= slot_azimuth c i fd j.
Proof.
  intros Hi. unfold slot_azimuth.
  pose proof (position_nonneg (rotationalPosition fd)) as Hrp.
  set (rp := inject_Z (Z.of_N (rotationalPosition fd))) in *.
  destruct (MAX_NUM_LASERS c <=? j)%nat.
  - destruct (Qle_bool 36000 (rp + i)) eqn:E.
    + apply Qle_bool_iff in E. lra.
    + lra.
  - destruct (Qle_bool 36000 rp) eqn:E.
    + apply Qle_bool_iff in E. lra.
    + lra.
Qed.

Lemma interpolated_nonneg (packet : DataPacket) :
  valid_positions packet = true -> 0 <= interpolated packet.
Proof.
  intros Hv. unfold valid_positions in Hv. rewrite forallb_forall in Hv.
  assert (H0 : (rotationalPosition (firingData packet 0) < 36000)%N).
  { apply N.ltb_lt, Hv. unfold FIRING_PER_PKT. simpl. auto. }
  unfold interpolated.
  destruct (Z.ltb_spec (Z.of_N (rotationalPosition (firingData packet 1)))
              (Z.of_N (rotationalPosition (firingData packet 0)))) as [Hlt|Hge];
    unfold Qle, Qdiv, Qmult, Qinv, inject_Z; simpl; lia.
Qed.

Lemma complete_rotation_initial (t : Z) (azimuth : Q) :
  0 <= azimuth -> complete_rotation t azimuth initial_state = initial_state.
Proof.
  intros Ha. unfold complete_rotation.
  replace (Qlt_bool azimuth (last_azimuth initial_state)) with false; [reflexivity|].
  symmetry. now apply Qlt_bool_false.
Qed.

Lemma map_eq_nil_inv {A B : Type} (f : A -> B) (l : list A) :
  map f l = [] -> l = [].
Proof. destruct l; [reflexivity|discriminate]. Qed.

Lemma process_slots_nothing_emitted (c : VelodyneCapture) (t : Z) (i : Q)
  (slots : list (FiringData * nat)) :
  MAX_NUM_LASERS c <> O -> 0 <= i ->
  emitted_azimuths c i slots = [] ->
  process_slots c t i slots initial_state = Ok initial_state.
Proof.
  intros Hm Hi He. apply map_eq_nil_inv in He.
  induction slots as [|[fd j] slots IH]; [reflexivity|].
  cbn [filter] in He. destruct (kept c (fd, j)) eqn:Hk; [discriminate|].
  unfold kept in Hk. cbn [fst snd] in Hk. apply negb_false_iff in Hk.
  cbn [process_slots].
  rewrite (process_slot_filtered c t i fd j initial_state Hm Hk).
  rewrite complete_rotation_initial by now apply slot_azimuth_nonneg.
  cbn [bind]. now apply IH.
Qed.

Lemma capture_loop_nothing_emitted (NDEBUG : bool) (c : VelodyneCapture)
  (stream : list (Z * Packet)) :
  MAX_NUM_LASERS c <> O ->
  forallb (checked NDEBUG) (map snd stream) = true ->
  forallb (fun p => valid_positions (data p)) (map snd stream) = true ->
  stream_azimuths c stream = [] ->
  capture_loop NDEBUG c stream initial_state = Ok initial_state.
Proof.
  intros Hm. induction stream as [|[ret p] stream IH]; intros Hc Hv He;
    [reflexivity|].
  cbn [map snd forallb] in Hc, Hv.
  apply andb_true_iff in Hc as [Hp Hc]. apply andb_true_iff in Hv as [Hvp Hv].
  cbn [capture_loop stream_azimuths] in *.
  destruct (ret <=? 0)%Z; [reflexivity|].
  apply app_eq_nil in He as [He1 He2].
  assert (E : process_packet NDEBUG c p initial_state = Ok initial_state).
  { unfold process_packet. unfold checked in Hp.
    destruct (size_mismatch (header p)); [reflexivity|].
    simpl in Hp. destruct (unixtime (header p)) as [t| |]; try discriminate.
    simpl in Hp. cbn [bind].
    replace (negb NDEBUG && negb (sensorType_accepted (data p))) with false
      by (destruct NDEBUG, (sensorType_accepted (data p)); simpl in *; congruence).
    rewrite process_firings_slots.
    apply process_slots_nothing_emitted; auto using interpolated_nonneg. }
  rewrite E. cbn [bind]. now apply IH.
Qed.

(** C8.  After any run of slots, and after any stream of packets,
    [last_azimuth] is the azimuth of the last slot whose return passed the
    filter (its value before the run when there is none, 0 from the start of
    the thread), and one point was added per such slot; in particular a slot
    whose return is filtered leaves [last_azimuth] as it was.  As long as no
    return has passed the filter the thread is in its initial state: nothing
    has been pushed to the queue. *)
Theorem last_azimuth_tracks_emitted :
  forall (NDEBUG : bool) (c : VelodyneCapture),
    calibrated c = true ->
    (forall t i slots st,
        exists st',
          process_slots c t i slots st = Ok st' /\
          last_azimuth st' = last (emitted_azimuths c i slots) (last_azimuth st) /\
          total_points st'
          = (total_points st + List.length (emitted_azimuths c i slots))%nat) /\
    (forall t i fd j st,
        distance (laserReturns fd (j mod MAX_NUM_LASERS c)) = 0%N ->
        exists st',
          process_slot c t i fd j st = Ok st' /\
          last_azimuth st' = last_azimuth st /\
          total_points st' = total_points st) /\
    (forall stream,
        forallb (checked NDEBUG) (map snd stream) = true ->
        exists st',
          capturePCAP NDEBUG c stream = Ok st' /\
          last_azimuth st' = last (stream_azimuths c stream) 0 /\
          total_points st' = List.length (stream_azimuths c stream)) /\
    (forall t i slots,
        0 <= i ->
        emitted_azimuths c i slots = [] ->
        process_slots c t i slots initial_state = Ok initial_state) /\
    (forall stream,
        forallb (checked NDEBUG) (map snd stream) = true ->
        forallb (fun p => valid_positions (data p)) (map snd stream) = true ->
        stream_azimuths c stream = [] ->
        capturePCAP NDEBUG c stream = Ok initial_state).
Proof.
  intros NDEBUG c Hc. destruct (calibrated_spec c Hc) as (Hpos & _).
  assert (Hm : MAX_NUM_LASERS c <> O) by lia.
  split; [|split; [|split; [|split]]].
  - intros t i slots st.
    destruct (process_slots_total c t i slots st Hc) as [st' E].
    exists st'. split; [exact E|]. now apply process_slots_last_azimuth with (t := t).
  - intros t i fd j st Hd. apply below_epsilon_iff in Hd.
    exists (complete_rotation t (slot_azimuth c i fd j) st).
    split; [now apply process_slot_filtered|].
    split; [|apply total_points_complete_rotation].
    unfold complete_rotation.
    now destruct (Qlt_bool (slot_azimuth c i fd j) (last_azimuth st)).
  - intros stream Hs. unfold capturePCAP.
    destruct (capture_loop_total NDEBUG c stream initial_state Hc Hs) as [st' E].
    exists st'. split; [exact E|].
    apply (capture_loop_last_azimuth NDEBUG c stream initial_state st' Hm E).
  - intros t i slots Hi He. now apply process_slots_nothing_emitted.
  - intros stream Hs Hv He. now apply capture_loop_nothing_emitted.
Qed.

Lemma last_azimuth_tracks_emitted_witness :
  calibrated (VLP16Capture.ctor 0) = true /\
  (exists st',
      capturePCAP false (VLP16Capture.ctor 0) [(1%Z, steady_packet 1)] = Ok st' /\
      last_azimuth st' == 100 /\
      total_points st' = 384%nat) /\
  capturePCAP false (VLP16Capture.ctor 0) [(1%Z, steady_packet 0)] = Ok initial_state.
Proof.
  split; [reflexivity|].
  destruct (last_azimuth_tracks_emitted false (VLP16Capture.ctor 0) eq_refl)
    as (_ & _ & Hstream & _ & Hfirst).
  split.
  - destruct (Hstream [(1%Z, steady_packet 1)]) as (st' & Hrun & Hlast & Hcount);
      [vm_compute; reflexivity|].
    exists st'. split; [exact Hrun|]. split.
    + rewrite Hlast. vm_compute. reflexivity.
    + rewrite Hcount. vm_compute. reflexivity.
  - apply Hfirst; vm_compute; reflexivity.
Defined.

(** * The sensor-type assertion *)

Lemma stoll_defined (s : string) : stoll s <> Undefined.
Proof.
  unfold stoll.
  destruct (match skip_spaces s with
            | String "-"%char s' => (true, s')
            | String "+"%char s' => (false, s')
            | _ => (false, skip_spaces s)
            end) as [negative s'].
  destruct (starts_with_digit s'); [|discriminate].
  destruct ((LLONG_MIN <=? (if negative then - read_digits s' 0 else read_digits s' 0))
            && ((if negative then - read_digits s' 0 else read_digits s' 0) <=? LLONG_MAX))%Z;
    discriminate.
Qed.

Lemma process_packet_assert_fails (c : VelodyneCapture) (p : Packet) (st : CaptureState) :
  size_mismatch (header p) = false ->
  sensorType_accepted (data p) = false ->
  process_packet false c p st = Abort.
Proof.
  intros Hsize Hs. unfold process_packet. rewrite Hsize, Hs.
  pose proof (stoll_defined (ss (header p))) as Hd. unfold unixtime.
  destruct (stoll (ss (header p))); [reflexivity | reflexivity | contradiction].
Qed.

Lemma process_packet_NDEBUG (c : VelodyneCapture) (p p' : Packet) (st : CaptureState) :
  header p' = header p ->
  firingData (data p') = firingData (data p) ->
  process_packet true c p' st = process_packet true c p st.
Proof.
  intros Hh Hf. unfold process_packet. rewrite Hh. cbn [negb andb].
  unfold process_firings, interpolated. now rewrite Hf.
Qed.

(** C6, as stated, fails on [unknown_sensor_packet]: with [assert] compiled
    in the thread aborts on it; with [assert] compiled out its 384 returns
    become points. *)
Lemma unknown_sensor_type_not_skipped :
  size_mismatch (header unknown_sensor_packet) = false /\
  sensorType_accepted (data unknown_sensor_packet) = false /\
  process_packet false (VLP16Capture.ctor 0) unknown_sensor_packet initial_state
  = Abort /\
  capturePCAP false (VLP16Capture.ctor 0)
    [(1%Z, unknown_sensor_packet); (1%Z, steady_packet 1)] = Abort /\
  exists st',
    process_packet true (VLP16Capture.ctor 0) unknown_sensor_packet initial_state
    = Ok st' /\
    total_points st' = 384%nat /\
    st' <> initial_state.
Proof.
  split; [reflexivity|]. split; [reflexivity|].
  assert (Ha : process_packet false (VLP16Capture.ctor 0) unknown_sensor_packet
                 initial_state = Abort)
    by (now apply process_packet_assert_fails).
  split; [exact Ha|]. split.
  - unfold capturePCAP. cbn [capture_loop]. cbn [Z.leb Z.compare]. now rewrite Ha.
  - destruct (process_packet_total true (VLP16Capture.ctor 0) unknown_sensor_packet
                initial_state) as [st' E]; [reflexivity | vm_compute; reflexivity |].
    exists st'. split; [exact E|].
    destruct (process_packet_last_azimuth true (VLP16Capture.ctor 0)
                unknown_sensor_packet initial_state st') as [_ Hn];
      [discriminate | exact E |].
    assert (Hc : total_points st' = 384%nat) by (rewrite Hn; vm_compute; reflexivity).
    split; [exact Hc|].
    intros ->. discriminate Hc.
Qed.

(** C6, amended.  A packet of the right size whose sensor type is neither
    0x21 nor 0x22: with [assert] compiled in, the thread aborts at this
    packet and the loop does not reach the packets after it; with [assert]
    compiled out, the sensor type is not read and the packet is processed as
    any packet with the same header and the same firing blocks. *)
Theorem unknown_sensor_type_asserts :
  forall (c : VelodyneCapture) (p : Packet) (st : CaptureState),
    size_mismatch (header p) = false ->
    sensorType_accepted (data p) = false ->
    process_packet false c p st = Abort /\
    (forall ret rest, (0 < ret)%Z ->
                      capture_loop false c ((ret, p) :: rest) st = Abort) /\
    (forall p', header p' = header p ->
                firingData (data p') = firingData (data p) ->
                process_packet true c p' st = process_packet true c p st).
Proof.
  intros c p st Hsize Hs.
  assert (Ha : process_packet false c p st = Abort)
    by now apply process_packet_assert_fails.
  split; [exact Ha|]. split.
  - intros ret rest Hret. cbn [capture_loop].
    destruct (Z.leb_spec ret 0); [lia|]. now rewrite Ha.
  - intros p'. apply process_packet_NDEBUG.
Qed.

Lemma unknown_sensor_type_asserts_witness :
  process_packet false (VLP16Capture.ctor 0) unknown_sensor_packet initial_state
  = Abort /\
  process_packet true (VLP16Capture.ctor 0) (steady_packet 1) initial_state
  = process_packet true (VLP16Capture.ctor 0) unknown_sensor_packet initial_state.
Proof.
  destruct (unknown_sensor_type_asserts (VLP16Capture.ctor 0) unknown_sensor_packet
              initial_state eq_refl eq_refl) as (Ha & _ & Hsame).
  split; [exact Ha|]. apply Hsame; reflexivity.
Defined.

(** * Calibration tables of the two sensors *)

Lemma degrees_180 (a : R) : (a * PI / 180.0 = a * PI / 180)%R.
Proof. lra. Qed.

Lemma VLP16_lut_cos (indeterminate : nat) :
  lut_cos (VLP16Capture.ctor indeterminate)
  = map (fun a => cos (a * PI / 180)%R) VLP16Capture.lut.
Proof.
  change (lut_cos (VLP16Capture.ctor indeterminate))
    with (map (fun a => cos (a * PI / 180.0)%R) VLP16Capture.lut ++ [])%list.
  rewrite List.app_nil_r. apply map_ext. intros a. now rewrite degrees_180.
Qed.

Lemma VLP16_lut_sin (indeterminate : nat) :
  lut_sin (VLP16Capture.ctor indeterminate)
  = map (fun a => sin (a * PI / 180)%R) VLP16Capture.lut.
Proof.
  change (lut_sin (VLP16Capture.ctor indeterminate))
    with (map (fun a => sin (a * PI / 180.0)%R) VLP16Capture.lut ++ [])%list.
  rewrite List.app_nil_r. apply map_ext. intros a. now rewrite degrees_180.
Qed.

Lemma VLP16_lut_spec : VLP16Capture.lut = spec_angles_16.
Proof.
  unfold VLP16Capture.lut, spec_angles_16.
  repeat (f_equal; try lra).
Qed.

(** C2, as stated, fails for the 32-channel sensor: entry 1 of its angle
    table is -9.3299999 and not the -9.33 of the list, and its [lut_cos] and
    [lut_sin] have no entry at all, [HDL32ECapture::initialize] never
    filling them. *)
Lemma HDL32E_tables_differ :
  nth_error (lut (HDL32ECapture.ctor 0)) 1 = Some (-9.3299999)%R /\
  nth_error spec_angles_32 1 = Some (-9.33)%R /\
  (-9.3299999 <> -9.33)%R /\
  lut (HDL32ECapture.ctor 0) <> spec_angles_32 /\
  lut_cos (HDL32ECapture.ctor 0) = [] /\
  lut_sin (HDL32ECapture.ctor 0) = [] /\
  calibrated (HDL32ECapture.ctor 0) = false.
Proof.
  split; [reflexivity|]. split; [reflexivity|]. split; [lra|].
  split; [|repeat split].
  intros H. apply (f_equal (fun l => nth 1 l 0%R)) in H.
  cbn [nth lut HDL32ECapture.ctor HDL32ECapture.initialize HDL32ECapture.lut
       spec_angles_32] in H.
  lra.
Qed.

(** C2, amended.  For the 16-channel sensor the angle table is the listed
    one and, at every channel below 16, [lut_cos] and [lut_sin] hold the
    cosine and the sine of the channel's angle times pi / 180.  The angle
    table of the 32-channel sensor is the one written out below.  Setting a
    transform leaves [MAX_NUM_LASERS] and the three tables as [initialize]
    left them, and the capture thread only reads them. *)
Theorem calibration_tables :
  forall (indeterminate : nat),
    MAX_NUM_LASERS (VLP16Capture.ctor indeterminate) = 16%nat /\
    lut (VLP16Capture.ctor indeterminate) = spec_angles_16 /\
    (forall channel : nat,
        (channel < 16)%nat ->
        exists angle : R,
          nth_error (lut (VLP16Capture.ctor indeterminate)) channel = Some angle /\
          nth_error (lut_cos (VLP16Capture.ctor indeterminate)) channel
          = Some (cos (angle * PI / 180)) /\
          nth_error (lut_sin (VLP16Capture.ctor indeterminate)) channel
          = Some (sin (angle * PI / 180))) /\
    MAX_NUM_LASERS (HDL32ECapture.ctor indeterminate) = 32%nat /\
    lut (HDL32ECapture.ctor indeterminate)
    = [ -30.67; -9.3299999; -29.33; -8.0; -28; -6.6700001; -26.67; -5.3299999;
        -25.33; -4.0; -24.0; -2.6700001; -22.67; -1.33; -21.33; 0.0;
        -20.0; 1.33; -18.67; 2.6700001; -17.33; 4.0; -16; 5.3299999;
        -14.67; 6.6700001; -13.33; 8.0; -12.0; 9.3299999; -10.67; 10.67 ]%R /\
    (forall (M : Matrix4f) (c : VelodyneCapture),
        MAX_NUM_LASERS (open_transform M c) = MAX_NUM_LASERS c /\
        lut (open_transform M c) = lut c /\
        lut_cos (open_transform M c) = lut_cos c /\
        lut_sin (open_transform M c) = lut_sin c).
Proof.
  intros g. split; [reflexivity|]. split; [exact VLP16_lut_spec|].
  split; [|repeat split].
  intros channel Hch.
  rewrite VLP16_lut_cos, VLP16_lut_sin, !nth_error_map.
  change (lut (VLP16Capture.ctor g)) with VLP16Capture.lut.
  destruct (nth_error_in_range VLP16Capture.lut channel) as [angle E];
    [exact Hch|].
  exists angle. rewrite E. repeat split.
Qed.

Lemma calibration_tables_witness :
  exists angle : R,
    nth_error (lut (VLP16Capture.ctor 0)) 1 = Some angle /\
    nth_error (lut_cos (VLP16Capture.ctor 0)) 1 = Some (cos (angle * PI / 180)) /\
    nth_error (lut_sin (VLP16Capture.ctor 0)) 1 = Some (sin (angle * PI / 180)).
Proof.
  destruct (calibration_tables 0) as (_ & _ & Htable & _).
  apply (Htable 1%nat). lia.
Defined.

(** * Further examples *)

(** The 32-channel sensor cannot reconstruct a point: the first return that
    passes the filter reads [lut_cos] past its end. *)
Example HDL32E_slot_undefined :
  process_slot (HDL32ECapture.ctor 0) 10420000 0 (block 100 (fun _ => echo 1)) 0
    initial_state = Undefined.
Proof. reflexivity. Qed.

(** On the 16-channel sensor slot [j + 16] reads the same return as slot [j]:
    returns 16 to 31 of a block are never read. *)
Example VLP16_slot_aliasing (t : Z) (i : Q) (rp : N) (lr lr' : nat -> LaserReturn)
  (j : nat) (st : CaptureState) :
  (forall k, (k < 16)%nat -> lr' k = lr k) ->
  process_slot (VLP16Capture.ctor 0) t i (block rp lr') j st
  = process_slot (VLP16Capture.ctor 0) t i (block rp lr) j st.
Proof.
  intros H. unfold process_slot.
  change (MAX_NUM_LASERS (VLP16Capture.ctor 0)) with 16%nat.
  cbn [Nat.eqb laserReturns block].
  rewrite (H (j mod 16)%nat) by (apply Nat.mod_upper_bound; lia).
  reflexivity.
Qed.

(** On the 16-channel sensor a block whose only echo is return 0 yields two
    points (slots 0 and 16), and a block whose only echo is return 16 yields
    none. *)
Example VLP16_return_read_twice :
  exists st0 st16 : CaptureState,
    process_firing (VLP16Capture.ctor 0) 10420000 0 (block 100 (single_echo 0 1))
      initial_state = Ok st0 /\
    total_points st0 = 2%nat /\
    process_firing (VLP16Capture.ctor 0) 10420000 0 (block 100 (single_echo 16 1))
      initial_state = Ok st16 /\
    total_points st16 = 0%nat.
Proof.
  assert (Hm : MAX_NUM_LASERS (VLP16Capture.ctor 0) <> O) by discriminate.
  pose (slots k := map (fun j => (block 100 (single_echo k 1), j))
                     (seq 0 LASER_PER_FIRING)).
  destruct (process_slots_total (VLP16Capture.ctor 0) 10420000 0 (slots 0%nat)
              initial_state (calibrated_VLP16 0)) as [st0 E0].
  destruct (process_slots_total (VLP16Capture.ctor 0) 10420000 0 (slots 16%nat)
              initial_state (calibrated_VLP16 0)) as [st16 E16].
  pose proof (process_slots_last_azimuth (VLP16Capture.ctor 0) 10420000 0
                (slots 0%nat) initial_state st0 Hm E0) as [_ H0].
  pose proof (process_slots_last_azimuth (VLP16Capture.ctor 0) 10420000 0
                (slots 16%nat) initial_state st16 Hm E16) as [_ H16].
  exists st0, st16. unfold process_firing.
  rewrite (process_firing_slots (VLP16Capture.ctor 0) 10420000 0
             (block 100 (single_echo 0 1)) LASER_PER_FIRING 0 initial_state).
  rewrite (process_firing_slots (VLP16Capture.ctor 0) 10420000 0
             (block 100 (single_echo 16 1)) LASER_PER_FIRING 0 initial_state).
  split; [exact E0|]. split; [rewrite H0; vm_compute; reflexivity|].
  split; [exact E16|]. rewrite H16. vm_compute. reflexivity.
Qed.

(** With the return at azimuth 50 filtered, [last_azimuth] stays at 350 and
    the slot at azimuth 120 closes a second, empty frame. *)
Example filtered_return_keeps_last_azimuth :
  exists p1 p2 p3 p5 : PointT,
    process_slots (VLP16Capture.ctor 0) 10420000 50
      [(block 100 (fun _ => echo 1), O); (block 200 (fun _ => echo 1), O);
       (block 350 (fun _ => echo 1), O); (block 50 (fun _ => echo 0), O);
       (block 120 (fun _ => echo 1), O)] initial_state
    = Ok {| last_azimuth := 120;
            cloud := {| stamp := 0; width := 0; height := 0; points := [p5] |};
            queue := [Some {| stamp := 10420000; width := 3; height := 1;
                              points := [p1; p2; p3] |};
                      Some {| stamp := 10420000; width := 0; height := 1;
                              points := [] |}] |}.
Proof.
  do 4 eexists. reflexivity.
Qed.

Example invalid_positions_close_empty_frames :
  valid_positions (payload overflow_positions 0 0x22) = false /\
  interpolated (payload overflow_positions 0 0x22) == - (29535 # 2) /\
  exists st',
    capturePCAP false (VLP16Capture.ctor 0)
      [(1%Z, {| header := pkthdr 10 0 1248;
                data := payload overflow_positions 0 0x22 |})]
    = Ok st' /\
    List.length (queue st') = 176%nat /\
    hd None (queue st')
    = Some {| stamp := 10000000; width := 0; height := 1; points := [] |} /\
    total_points st' = 0%nat.
Proof.
  split; [reflexivity|]. split; [reflexivity|].
  eexists. split; [vm_compute; reflexivity|]. repeat split.
Qed.

(** * Points of a capture, in order *)

Lemma all_points_complete_rotation (t : Z) (azimuth : Q) (st : CaptureState) :
  all_points (complete_rotation t azimuth st) = all_points st.
Proof.
  unfold complete_rotation, all_points.
  destruct (Qlt_bool azimuth (last_azimuth st)); [|reflexivity].
  cbn [queue cloud new_PointCloudT points].
  rewrite map_app, concat_app. cbn [map List.concat frame_points finalize points].
  now rewrite !List.app_nil_r.
Qed.

Lemma process_slot_points (c : VelodyneCapture) (t : Z) (i : Q) (fd : FiringData)
  (j : nat) (st st' : CaptureState) :
  MAX_NUM_LASERS c <> O ->
  process_slot c t i fd j st = Ok st' ->
  exists new,
    all_points st' = (all_points st ++ new)%list /\
    map Ok new = reconstructed c i [(fd, j)].
Proof.
  intros Hm Hrun. unfold reconstructed, kept. cbn [filter fst snd].
  destruct (below_epsilon (laserReturns fd (j mod MAX_NUM_LASERS c))) eqn:Hd;
    cbn [negb map].
  - rewrite (process_slot_filtered c t i fd j st Hm Hd) in Hrun.
    injection Hrun as <-. exists []. rewrite all_points_complete_rotation.
    now rewrite List.app_nil_r.
  - unfold process_slot in Hrun.
    destruct (Nat.eqb_spec (MAX_NUM_LASERS c) 0) as [E|_]; [contradiction|].
    rewrite Hd in Hrun.
    destruct (reconstruct c (laserReturns fd (j mod MAX_NUM_LASERS c))
                (j mod MAX_NUM_LASERS c) (slot_azimuth c i fd j)) as [p| |] eqn:Hp;
      try discriminate.
    cbn [bind] in Hrun. injection Hrun as <-. exists [p].
    split; [|cbn [map fst snd]; now rewrite Hp].
    rewrite <- (all_points_complete_rotation t (slot_azimuth c i fd j) st).
    unfold all_points. cbn [queue cloud push_back points].
    now rewrite app_assoc.
Qed.

Lemma reconstructed_cons (c : VelodyneCapture) (i : Q) (slot : FiringData * nat)
  (slots : list (FiringData * nat)) :
  reconstructed c i (slot :: slots)
  = (reconstructed c i [slot] ++ reconstructed c i slots)%list.
Proof.
  unfold reconstructed. cbn [filter]. destruct (kept c slot); reflexivity.
Qed.

Lemma process_slots_points (c : VelodyneCapture) (t : Z) (i : Q)
  (slots : list (FiringData * nat)) (st st' : CaptureState) :
  MAX_NUM_LASERS c <> O ->
  process_slots c t i slots st = Ok st' ->
  exists new,
    all_points st' = (all_points st ++ new)%list /\
    map Ok new = reconstructed c i slots.
Proof.
  intros Hm. revert st; induction slots as [|[fd j] slots IH]; intros st Hrun.
  - cbn in Hrun. injection Hrun as <-. exists []. now rewrite List.app_nil_r.
  - cbn [process_slots] in Hrun.
    destruct (process_slot c t i fd j st) as [st1| |] eqn:E1; try discriminate.
    cbn [bind] in Hrun.
    destruct (process_slot_points c t i fd j st st1 Hm E1) as (n1 & H1 & R1).
    destruct (IH st1 Hrun) as (n2 & H2 & R2).
    exists (n1 ++ n2)%list. split.
    + now rewrite H2, H1, app_assoc.
    + now rewrite reconstructed_cons, map_app, R1, R2.
Qed.

Lemma capture_loop_points (NDEBUG : bool) (c : VelodyneCapture)
  (stream : list (Z * Packet)) (st st' : CaptureState) :
  MAX_NUM_LASERS c <> O ->
  capture_loop NDEBUG c stream st = Ok st' ->
  exists new,
    all_points st' = (all_points st ++ new)%list /\
    map Ok new = stream_reconstructed c stream.
Proof.
  intros Hm. revert st; induction stream as [|[ret p] stream IH]; intros st Hrun.
  - cbn in Hrun. injection Hrun as <-. exists []. now rewrite List.app_nil_r.
  - cbn [capture_loop stream_reconstructed] in *.
    destruct (ret <=? 0)%Z.
    + injection Hrun as <-. exists []. now rewrite List.app_nil_r.
    + destruct (process_packet NDEBUG c p st) as [st1| |] eqn:E1; try discriminate.
      cbn [bind] in Hrun.
      destruct (IH st1 Hrun) as (n2 & H2 & R2).
      assert (H1 : exists n1,
                 all_points st1 = (all_points st ++ n1)%list /\
                 map Ok n1
                 = if size_mismatch (header p) then []
                   else reconstructed c (interpolated (data p)) (packet_slots (data p))).
      { unfold process_packet in E1. destruct (size_mismatch (header p)).
        - injection E1 as <-. exists []. now rewrite List.app_nil_r.
        - destruct (unixtime (header p)) as [t| |]; try discriminate.
          cbn [bind] in E1.
          destruct (negb NDEBUG && negb (sensorType_accepted (data p)));
            try discriminate.
          rewrite process_firings_slots in E1.
          now apply process_slots_points with (t := t). }
      destruct H1 as (n1 & H1 & R1).
      exists (n1 ++ n2)%list. split.
      * now rewrite H2, H1, app_assoc.
      * now rewrite map_app, R1, R2.
Qed.

Lemma length_stream_reconstructed (c : VelodyneCapture) (stream : list (Z * Packet)) :
  List.length (stream_reconstructed c stream) = List.length (stream_azimuths c stream).
Proof.
  induction stream as [|[ret p] stream IH]; [reflexivity|].
  cbn [stream_reconstructed stream_azimuths].
  destruct (ret <=? 0)%Z; [reflexivity|].
  rewrite !length_app, IH. f_equal.
  destruct (size_mismatch (header p)); [reflexivity|].
  unfold reconstructed, emitted_azimuths. now rewrite !length_map.
Qed.

(** X1.  On a capture object whose tables cover its channels and a stream of
    packets that pass the checks, the thread ends normally, and the points it
    holds - those of the queued frames, oldest frame first, then those of the
    frame in progress - are the points [reconstruct] gives at the slots whose
    return passes the filter, in the order of the stream, none missing, none
    twice. *)
Theorem capture_points_in_order :
  forall (NDEBUG : bool) (c : VelodyneCapture) (stream : list (Z * Packet)),
    calibrated c = true ->
    forallb (checked NDEBUG) (map snd stream) = true ->
    exists st',
      capturePCAP NDEBUG c stream = Ok st' /\
      map Ok (all_points st') = stream_reconstructed c stream.
Proof.
  intros NDEBUG c stream Hc Hs. destruct (calibrated_spec c Hc) as (Hpos & _).
  destruct (capture_loop_total NDEBUG c stream initial_state Hc Hs) as [st' E].
  exists st'. split; [exact E|].
  destruct (capture_loop_points NDEBUG c stream initial_state st') as (new & Hn & Hr);
    [lia | exact E |].
  now rewrite Hn.
Qed.

Lemma capture_points_in_order_witness :
  exists st',
    capturePCAP false (VLP16Capture.ctor 0) [(1%Z, steady_packet 1)] = Ok st' /\
    List.length (all_points st') = 384%nat.
Proof.
  destruct (capture_points_in_order false (VLP16Capture.ctor 0)
              [(1%Z, steady_packet 1)] eq_refl)
    as (st' & Hrun & Hpts); [vm_compute; reflexivity|].
  exists st'. split; [exact Hrun|].
  rewrite <- (length_map Ok), Hpts, length_stream_reconstructed.
  vm_compute. reflexivity.
Defined.

(** * The frames a capture queues *)

Lemma finalized_finalize (t : Z) (cl : PointCloudT) :
  finalized (Some (finalize t cl)) = true.
Proof.
  unfold finalized, finalize. cbn [height width points].
  now rewrite !Z.eqb_refl.
Qed.

Lemma complete_rotation_queue (t : Z) (azimuth : Q) (st : CaptureState) :
  exists pushed,
    queue (complete_rotation t azimuth st) = (queue st ++ pushed)%list /\
    pushed_at t pushed.
Proof.
  unfold complete_rotation.
  destruct (Qlt_bool azimuth (last_azimuth st)).
  - exists [Some (finalize t (cloud st))]. split; [reflexivity|].
    constructor; [|constructor]. split; [apply finalized_finalize|reflexivity].
  - exists []. split; [now rewrite List.app_nil_r|constructor].
Qed.

Lemma process_slot_queue (c : VelodyneCapture) (t : Z) (i : Q) (fd : FiringData)
  (j : nat) (st st' : CaptureState) :
  process_slot c t i fd j st = Ok st' ->
  exists pushed, queue st' = (queue st ++ pushed)%list /\ pushed_at t pushed.
Proof.
  unfold process_slot. intros Hrun.
  destruct (MAX_NUM_LASERS c =? 0)%nat; [discriminate|].
  destruct (below_epsilon (laserReturns fd (j mod MAX_NUM_LASERS c))).
  - injection Hrun as <-. apply complete_rotation_queue.
  - destruct (reconstruct c (laserReturns fd (j mod MAX_NUM_LASERS c))
                (j mod MAX_NUM_LASERS c) (slot_azimuth c i fd j)) as [p| |];
      try discriminate.
    cbn [bind] in Hrun. injection Hrun as <-. cbn [queue].
    apply complete_rotation_queue.
Qed.

Lemma process_slots_queue (c : VelodyneCapture) (t : Z) (i : Q)
  (slots : list (FiringData * nat)) (st st' : CaptureState) :
  process_slots c t i slots st = Ok st' ->
  exists pushed, queue st' = (queue st ++ pushed)%list /\ pushed_at t pushed.
Proof.
  revert st; induction slots as [|[fd j] slots IH]; intros st Hrun.
  - cbn in Hrun. injection Hrun as <-. exists [].
    split; [now rewrite List.app_nil_r|constructor].
  - cbn [process_slots] in Hrun.
    destruct (process_slot c t i fd j st) as [st1| |] eqn:E1; try discriminate.
    cbn [bind] in Hrun.
    destruct (process_slot_queue c t i fd j st st1 E1) as (p1 & Q1 & F1).
    destruct (IH st1 Hrun) as (p2 & Q2 & F2).
    exists (p1 ++ p2)%list. split.
    + now rewrite Q2, Q1, app_assoc.
    + apply Forall_app. now split.
Qed.

Lemma pushed_at_stamps (t : Z) (pushed : list PointCloudPtrT) :
  pushed_at t pushed -> map stamp_of pushed = repeat t (List.length pushed).
Proof.
  induction 1 as [|f l [_ Hf] _ IH]; [reflexivity|].
  cbn [map List.length repeat]. now rewrite Hf, IH.
Qed.

Lemma pushed_at_finalized (t : Z) (pushed : list PointCloudPtrT) :
  pushed_at t pushed -> forallb finalized pushed = true.
Proof.
  induction 1 as [|f l [Hf _] _ IH]; [reflexivity|].
  cbn [forallb]. now rewrite Hf, IH.
Qed.

(** The stamps of the frames pushed during a stream: the time of each packet,
    once per frame the packet closed. *)
Lemma capture_loop_queue (NDEBUG : bool) (c : VelodyneCapture)
  (stream : list (Z * Packet)) (st st' : CaptureState) :
  capture_loop NDEBUG c stream st = Ok st' ->
  exists pushed counts,
    queue st' = (queue st ++ pushed)%list /\
    forallb finalized pushed = true /\
    List.length counts = List.length (stream_times stream) /\
    map stamp_of pushed
    = List.concat (map (fun tk => repeat (fst tk) (snd tk))
                     (combine (stream_times stream) counts)).
Proof.
  revert st; induction stream as [|[ret p] stream IH]; intros st Hrun.
  - cbn in Hrun. injection Hrun as <-. exists [], [].
    repeat split. now rewrite List.app_nil_r.
  - cbn [capture_loop stream_times] in *.
    destruct (ret <=? 0)%Z.
    + injection Hrun as <-. exists [], []. repeat split. now rewrite List.app_nil_r.
    + destruct (process_packet NDEBUG c p st) as [st1| |] eqn:E1; try discriminate.
      cbn [bind] in Hrun.
      destruct (IH st1 Hrun) as (p2 & k2 & Q2 & F2 & L2 & S2).
      unfold process_packet in E1. destruct (size_mismatch (header p)).
      * injection E1 as <-. exists p2, k2. cbn [app]. auto.
      * destruct (unixtime (header p)) as [t| |]; try discriminate.
        cbn [bind] in E1.
        destruct (negb NDEBUG && negb (sensorType_accepted (data p)));
          try discriminate.
        rewrite process_firings_slots in E1.
        destruct (process_slots_queue _ _ _ _ _ _ E1) as (p1 & Q1 & F1).
        exists (p1 ++ p2)%list, (List.length p1 :: k2).
        split; [now rewrite Q2, Q1, app_assoc|].
        split; [rewrite forallb_app, F2, (pushed_at_finalized t p1 F1); reflexivity|].
        split; [cbn; now rewrite L2|].
        rewrite map_app, S2, (pushed_at_stamps t p1 F1). reflexivity.
Qed.

(** * Stamps and sizes of the frames, slot by slot *)

Lemma process_slot_frames (c : VelodyneCapture) (t : Z) (i : Q) (fd : FiringData)
  (j : nat) (st st' : CaptureState) :
  MAX_NUM_LASERS c <> O ->
  process_slot c t i fd j st = Ok st' ->
  map frame_summary (queue st')
  = (map frame_summary (queue st)
     ++ fst (slot_frame c t i (fd, j) (last_azimuth st)
               (List.length (points (cloud st)))))%list /\
  (last_azimuth st', List.length (points (cloud st')))
  = snd (slot_frame c t i (fd, j) (last_azimuth st) (List.length (points (cloud st)))).
Proof.
  intros Hm Hrun. unfold slot_frame, kept. cbn [fst snd].
  destruct (below_epsilon (laserReturns fd (j mod MAX_NUM_LASERS c))) eqn:Hd;
    cbn [negb].
  - rewrite (process_slot_filtered c t i fd j st Hm Hd) in Hrun.
    injection Hrun as <-. unfold complete_rotation.
    destruct (Qlt_bool (slot_azimuth c i fd j) (last_azimuth st)).
    + cbn [queue cloud last_azimuth new_PointCloudT points List.length].
      rewrite map_app. split; reflexivity.
    + rewrite List.app_nil_r. split; reflexivity.
  - unfold process_slot in Hrun.
    destruct (Nat.eqb_spec (MAX_NUM_LASERS c) 0) as [E|_]; [contradiction|].
    rewrite Hd in Hrun.
    destruct (reconstruct c (laserReturns fd (j mod MAX_NUM_LASERS c))
                (j mod MAX_NUM_LASERS c) (slot_azimuth c i fd j)) as [p| |];
      try discriminate.
    cbn [bind] in Hrun. injection Hrun as <-.
    cbn [queue cloud last_azimuth push_back points].
    rewrite length_app. cbn [List.length]. rewrite Nat.add_1_r.
    unfold complete_rotation.
    destruct (Qlt_bool (slot_azimuth c i fd j) (last_azimuth st)).
    + cbn [queue cloud last_azimuth new_PointCloudT points List.length].
      rewrite map_app. split; reflexivity.
    + rewrite List.app_nil_r. split; reflexivity.
Qed.

Lemma process_slots_frames (c : VelodyneCapture) (t : Z) (i : Q)
  (slots : list (FiringData * nat)) (st st' : CaptureState) :
  MAX_NUM_LASERS c <> O ->
  process_slots c t i slots st = Ok st' ->
  map frame_summary (queue st')
  = (map frame_summary (queue st)
     ++ fst (slot_frames c t i slots (last_azimuth st)
               (List.length (points (cloud st)))))%list /\
  (last_azimuth st', List.length (points (cloud st')))
  = snd (slot_frames c t i slots (last_azimuth st) (List.length (points (cloud st)))).
Proof.
  intros Hm. revert st; induction slots as [|[fd j] slots IH]; intros st Hrun.
  - cbn in Hrun. injection Hrun as <-. cbn [slot_frames fst snd].
    rewrite List.app_nil_r. split; reflexivity.
  - cbn [process_slots] in Hrun.
    destruct (process_slot c t i fd j st) as [st1| |] eqn:E1; try discriminate.
    cbn [bind] in Hrun.
    destruct (process_slot_frames c t i fd j st st1 Hm E1) as [Q1 S1].
    destruct (IH st1 Hrun) as [Q2 S2].
    cbn [slot_frames]. cbv zeta. rewrite <- S1. cbn [fst snd].
    split; [|exact S2]. now rewrite Q2, Q1, app_assoc.
Qed.

Lemma capture_loop_frames (NDEBUG : bool) (c : VelodyneCapture)
  (stream : list (Z * Packet)) (st st' : CaptureState) :
  MAX_NUM_LASERS c <> O ->
  capture_loop NDEBUG c stream st = Ok st' ->
  map frame_summary (queue st')
  = (map frame_summary (queue st)
     ++ fst (stream_frames c stream (last_azimuth st)
               (List.length (points (cloud st)))))%list /\
  (last_azimuth st', List.length (points (cloud st')))
  = snd (stream_frames c stream (last_azimuth st) (List.length (points (cloud st)))).
Proof.
  intros Hm. revert st; induction stream as [|[ret p] stream IH]; intros st Hrun.
  - cbn in Hrun. injection Hrun as <-. cbn [stream_frames fst snd].
    rewrite List.app_nil_r. split; reflexivity.
  - cbn [capture_loop stream_frames] in *.
    destruct (ret <=? 0)%Z.
    + injection Hrun as <-. cbn [fst snd]. rewrite List.app_nil_r. split; reflexivity.
    + destruct (process_packet NDEBUG c p st) as [st1| |] eqn:E1; try discriminate.
      cbn [bind] in Hrun. destruct (IH st1 Hrun) as [Q2 S2].
      unfold process_packet in E1. destruct (size_mismatch (header p)).
      * injection E1 as <-. split; assumption.
      * destruct (unixtime (header p)) as [t| |]; try discriminate.
        cbn [bind] in E1.
        destruct (negb NDEBUG && negb (sensorType_accepted (data p)));
          try discriminate.
        rewrite process_firings_slots in E1.
        destruct (process_slots_frames c t (interpolated (data p))
                    (packet_slots (data p)) st st1 Hm E1) as [Q1 S1].
        cbv zeta. rewrite <- S1. cbn [fst snd].
        split; [|exact S2]. now rewrite Q2, Q1, app_assoc.
Qed.

Lemma capturePCAP_loop (NDEBUG : bool) (c : VelodyneCapture)
  (stream : list (Z * Packet)) :
  capturePCAP NDEBUG c stream = capture_loop NDEBUG c stream initial_state.
Proof. reflexivity. Qed.

(** Packets delivered with a positive return value are gone through one after
    the other. *)
Lemma capture_loop_app (NDEBUG : bool) (c : VelodyneCapture)
  (l1 l2 : list (Z * Packet)) (st : CaptureState) :
  forallb (fun rp => (0 <? fst rp)%Z) l1 = true ->
  capture_loop NDEBUG c (l1 ++ l2) st
  = (st1 <- capture_loop NDEBUG c l1 st ;; capture_loop NDEBUG c l2 st1).
Proof.
  revert st; induction l1 as [|[ret p] l1 IH]; intros st H; [reflexivity|].
  cbn [forallb fst] in H. apply andb_true_iff in H as [Hr H].
  apply Z.ltb_lt in Hr. rewrite <- app_comm_cons. cbn [capture_loop].
  destruct (Z.leb_spec ret 0) as [Hle|_]; [exfalso; revert Hr Hle; apply Z.lt_nge|].
  destruct (process_packet NDEBUG c p st) as [st1| |]; cbn [bind];
    [apply IH; exact H | reflexivity | reflexivity].
Qed.

(** X2.  While the thread goes through a stream, the frames already in the
    queue stay where they are, unchanged, and every frame it adds behind
    them has [height] 1 and [width] equal to its number of points (modulo
    2^32, the width of the field). *)
Theorem capture_queue_grows :
  forall (NDEBUG : bool) (c : VelodyneCapture) (stream : list (Z * Packet))
         (st : CaptureState),
    calibrated c = true ->
    forallb (checked NDEBUG) (map snd stream) = true ->
    exists st' pushed,
      capture_loop NDEBUG c stream st = Ok st' /\
      queue st' = (queue st ++ pushed)%list /\
      forallb finalized pushed = true.
Proof.
  intros NDEBUG c stream st Hc Hs.
  destruct (capture_loop_total NDEBUG c stream st Hc Hs) as [st' E].
  destruct (capture_loop_queue NDEBUG c stream st st' E) as (pushed & _ & Q & F & _).
  exists st', pushed. auto.
Qed.

(** X3.  A frame is stamped with the time value of the packet during which
    it is closed: the frames the thread pushes while it goes through a packet
    - those the queue holds after the packet and did not hold before it - all
    carry the value read from the capture time of that packet, and their
    stamps and sizes are those of the rotation test run over the slots of the
    packet. *)
Theorem capture_stamps_follow_packets :
  forall (NDEBUG : bool) (c : VelodyneCapture) (before : list (Z * Packet))
         (ret : Z) (p : Packet),
    calibrated c = true ->
    forallb (checked NDEBUG) (map snd before) = true ->
    forallb (fun rp => (0 <? fst rp)%Z) before = true ->
    (0 < ret)%Z ->
    checked NDEBUG p = true ->
    size_mismatch (header p) = false ->
    exists (st1 st2 : CaptureState) (t : Z) (pushed : list PointCloudPtrT),
      capturePCAP NDEBUG c before = Ok st1 /\
      capturePCAP NDEBUG c (before ++ [(ret, p)]) = Ok st2 /\
      unixtime (header p) = Ok t /\
      queue st2 = (queue st1 ++ pushed)%list /\
      pushed_at t pushed /\
      map frame_summary pushed
      = fst (slot_frames c t (interpolated (data p)) (packet_slots (data p))
               (last_azimuth st1) (List.length (points (cloud st1)))).
Proof.
  intros NDEBUG c before ret p Hc Hs Hpos Hret Hp Hsize.
  destruct (calibrated_spec c Hc) as (Hlasers & _).
  assert (Hm : MAX_NUM_LASERS c <> O)
    by (intros E; rewrite E in Hlasers; inversion Hlasers).
  unfold capturePCAP.
  destruct (capture_loop_total NDEBUG c before initial_state Hc Hs) as [st1 E1].
  destruct (process_packet_total NDEBUG c p st1 Hc Hp) as [st2 E2].
  unfold checked in Hp. rewrite Hsize in Hp. cbn [orb] in Hp.
  destruct (unixtime (header p)) as [t| |] eqn:Ht; try discriminate.
  cbn [andb] in Hp. apply orb_true_iff in Hp.
  rewrite (process_packet_slots NDEBUG c p st1 t Hsize Ht Hp) in E2.
  destruct (process_slots_queue c t (interpolated (data p)) (packet_slots (data p))
              st1 st2 E2) as (pushed & Q & F).
  destruct (process_slots_frames c t (interpolated (data p)) (packet_slots (data p))
              st1 st2 Hm E2) as [S _].
  exists st1, st2, t, pushed.
  split; [exact E1|]. split.
  { rewrite (capture_loop_app NDEBUG c before [(ret, p)] initial_state Hpos), E1.
    cbn [bind capture_loop].
    destruct (Z.leb_spec ret 0) as [Hle|_]; [exfalso; revert Hret Hle; apply Z.lt_nge|].
    rewrite (process_packet_slots NDEBUG c p st1 t Hsize Ht Hp), E2. reflexivity. }
  split; [reflexivity|]. split; [exact Q|]. split; [exact F|].
  rewrite Q, map_app in S. now apply app_inv_head in S.
Qed.

Lemma capture_queue_grows_witness :
  exists st' pushed,
    capture_loop false (VLP16Capture.ctor 0) wrap_stream initial_state = Ok st' /\
    queue st' = pushed /\
    forallb finalized pushed = true.
Proof.
  assert (Hs : forallb (checked false) (map snd wrap_stream) = true)
    by (vm_compute; reflexivity).
  destruct (capture_queue_grows false (VLP16Capture.ctor 0) wrap_stream initial_state
              (calibrated_VLP16 0) Hs) as (st' & pushed & E & Q & F).
  exists st', pushed. split; [exact E|]. split; [exact Q|exact F].
Defined.

Lemma capture_stamps_follow_packets_witness :
  exists (st1 st2 : CaptureState) (pushed : list PointCloudPtrT),
    capturePCAP false (VLP16Capture.ctor 0) [(1%Z, before_wrap)] = Ok st1 /\
    capturePCAP false (VLP16Capture.ctor 0) ([(1%Z, before_wrap)] ++ [(1%Z, after_wrap)])
    = Ok st2 /\
    queue st2 = (queue st1 ++ pushed)%list /\
    pushed_at 11000000 pushed /\
    map frame_summary pushed = [(11000000%Z, 384%nat)].
Proof.
  assert (Hs : forallb (checked false) (map snd [(1%Z, before_wrap)]) = true)
    by (vm_compute; reflexivity).
  assert (Hp : checked false after_wrap = true) by (vm_compute; reflexivity).
  assert (Hz : size_mismatch (header after_wrap) = false) by (vm_compute; reflexivity).
  assert (Ht : unixtime (header after_wrap) = Ok 11000000%Z)
    by (vm_compute; reflexivity).
  destruct (capture_stamps_follow_packets false (VLP16Capture.ctor 0)
              [(1%Z, before_wrap)] 1 after_wrap
              (calibrated_VLP16 0) Hs eq_refl eq_refl Hp Hz)
    as (st1 & st2 & t & pushed & E1 & E2 & Ht' & Q & F & S).
  rewrite Ht in Ht'. injection Ht' as <-.
  assert (Hm : MAX_NUM_LASERS (VLP16Capture.ctor 0) <> O) by discriminate.
  pose proof E1 as L1. rewrite capturePCAP_loop in L1.
  pose proof (proj2 (capture_loop_frames false (VLP16Capture.ctor 0)
                       [(1%Z, before_wrap)] initial_state st1 Hm L1)) as S1.
  assert (H1 : snd (stream_frames (VLP16Capture.ctor 0) [(1%Z, before_wrap)]
                      (last_azimuth initial_state)
                      (List.length (points (cloud initial_state))))
               = (70000 # 2, 384%nat))
    by (vm_compute; reflexivity).
  rewrite H1 in S1. injection S1 as Hla Hn. rewrite Hla, Hn in S.
  assert (H2 : fst (slot_frames (VLP16Capture.ctor 0) 11000000
                      (interpolated (data after_wrap)) (packet_slots (data after_wrap))
                      (70000 # 2) 384)
               = [(11000000%Z, 384%nat)])
    by (vm_compute; reflexivity).
  rewrite H2 in S.
  exists st1, st2, pushed.
  exact (conj E1 (conj E2 (conj Q (conj F S)))).
Defined.

(** * Azimuths stay in range *)

Lemma valid_position (packet : DataPacket) (f : nat) :
  valid_positions packet = true -> (f < FIRING_PER_PKT)%nat ->
  (rotationalPosition (firingData packet f) < 36000)%N.
Proof.
  intros Hv Hf. unfold valid_positions in Hv. rewrite forallb_forall in Hv.
  apply N.ltb_lt, Hv, in_seq. lia.
Qed.

Lemma interpolated_bounds (packet : DataPacket) :
  valid_positions packet = true ->
  0 <= interpolated packet /\ interpolated packet < 18000.
Proof.
  intros Hv.
  assert (H0 := valid_position packet 0 Hv ltac:(unfold FIRING_PER_PKT; lia)).
  assert (H1 := valid_position packet 1 Hv ltac:(unfold FIRING_PER_PKT; lia)).
  unfold interpolated.
  destruct (Z.ltb_spec (Z.of_N (rotationalPosition (firingData packet 1)))
              (Z.of_N (rotationalPosition (firingData packet 0)))) as [Hlt|Hge];
    unfold Qle, Qlt, Qdiv, Qmult, Qinv, inject_Z; simpl; lia.
Qed.

Lemma slot_azimuth_in_range (c : VelodyneCapture) (i : Q) (fd : FiringData) (j : nat) :
  (rotationalPosition fd < 36000)%N -> 0 <= i -> i < 36000 ->
  in_range (slot_azimuth c i fd j) = true.
Proof.
  intros Hrp Hi0 Hi1. unfold in_range. apply andb_true_iff.
  rewrite Qle_bool_iff, Qlt_bool_iff. unfold slot_azimuth.
  assert (Hlo : 0 <= inject_Z (Z.of_N (rotationalPosition fd)))
    by apply position_nonneg.
  assert (Hhi : inject_Z (Z.of_N (rotationalPosition fd)) < 36000)
    by (unfold Qlt; simpl; lia).
  set (rp := inject_Z (Z.of_N (rotationalPosition fd))) in *.
  destruct (MAX_NUM_LASERS c <=? j)%nat.
  - destruct (Qle_bool 36000 (rp + i)) eqn:E.
    + apply Qle_bool_iff in E. lra.
    + apply Qlt_bool_false in E || idtac.
      assert (rp + i < 36000).
      { apply Qnot_le_lt. intros H. apply Qle_bool_iff in H. congruence. }
      lra.
  - destruct (Qle_bool 36000 rp) eqn:E.
    + apply Qle_bool_iff in E. lra.
    + lra.
Qed.

Lemma in_packet_slots (packet : DataPacket) (slot : FiringData * nat) :
  In slot (packet_slots packet) ->
  exists f, (f < FIRING_PER_PKT)%nat /\ fst slot = firingData packet f.
Proof.
  unfold packet_slots. intros Hin.
  apply in_flat_map in Hin. destruct Hin as (f & Hf & Hin).
  apply in_map_iff in Hin. destruct Hin as (j' & Heq & _).
  apply in_seq in Hf. exists f. split; [exact (proj2 Hf)|].
  now rewrite <- Heq.
Qed.

Lemma emitted_in_range (c : VelodyneCapture) (i : Q) (slots : list (FiringData * nat)) :
  (forall slot, In slot slots -> (rotationalPosition (fst slot) < 36000)%N) ->
  0 <= i -> i < 36000 ->
  forallb in_range (emitted_azimuths c i slots) = true.
Proof.
  intros Hrp Hi0 Hi1. apply forallb_forall. intros a Ha.
  unfold emitted_azimuths in Ha.
  apply in_map_iff in Ha. destruct Ha as (slot & Heq & Hin).
  apply filter_In in Hin. destruct Hin as [Hin _].
  rewrite <- Heq. apply slot_azimuth_in_range; auto.
Qed.

Lemma packet_slots_in_range (c : VelodyneCapture) (packet : DataPacket) :
  valid_positions packet = true ->
  forallb in_range (emitted_azimuths c (interpolated packet) (packet_slots packet))
  = true.
Proof.
  intros Hv. destruct (interpolated_bounds packet Hv) as [Hi0 Hi1].
  apply emitted_in_range.
  - intros slot Hin. destruct (in_packet_slots packet slot Hin) as (f & Hf & ->).
    now apply valid_position.
  - exact Hi0.
  - apply Qlt_trans with (y := 18000); [exact Hi1|reflexivity].
Qed.

Lemma stream_azimuths_in_range (c : VelodyneCapture) (stream : list (Z * Packet)) :
  forallb (fun p => valid_positions (data p)) (map snd stream) = true ->
  forallb in_range (stream_azimuths c stream) = true.
Proof.
  induction stream as [|[ret p] stream IH]; intros Hv; [reflexivity|].
  cbn [map snd forallb] in Hv. apply andb_true_iff in Hv as [Hp Hv].
  cbn [stream_azimuths]. destruct (ret <=? 0)%Z; [reflexivity|].
  rewrite forallb_app, (IH Hv), andb_true_r.
  destruct (size_mismatch (header p)); [reflexivity|].
  now apply packet_slots_in_range.
Qed.

Lemma last_in_range (l : list Q) (d : Q) :
  forallb in_range l = true -> in_range d = true -> in_range (last l d) = true.
Proof.
  revert d; induction l as [|a l IH]; intros d Hl Hd; [exact Hd|].
  cbn [forallb] in Hl. apply andb_true_iff in Hl as [Ha Hl].
  rewrite last_cons_default. now apply IH.
Qed.

(** X4.  For packets whose rotational positions are below 36000, every
    azimuth at which a point is reconstructed lies in [0, 36000), and so
    does [last_azimuth] when the thread ends. *)
Theorem azimuths_in_range :
  forall (NDEBUG : bool) (c : VelodyneCapture) (stream : list (Z * Packet)),
    calibrated c = true ->
    forallb (checked NDEBUG) (map snd stream) = true ->
    forallb (fun p => valid_positions (data p)) (map snd stream) = true ->
    exists st',
      capturePCAP NDEBUG c stream = Ok st' /\
      forallb in_range (stream_azimuths c stream) = true /\
      0 <= last_azimuth st' /\ last_azimuth st' < 36000.
Proof.
  intros NDEBUG c stream Hc Hs Hv. destruct (calibrated_spec c Hc) as (Hpos & _).
  destruct (capture_loop_total NDEBUG c stream initial_state Hc Hs) as [st' E].
  exists st'. split; [exact E|].
  pose proof (stream_azimuths_in_range c stream Hv) as Hr.
  split; [exact Hr|].
  destruct (capture_loop_last_azimuth NDEBUG c stream initial_state st') as [Hl _];
    [lia | exact E |].
  assert (H : in_range (last_azimuth st') = true)
    by (rewrite Hl; apply last_in_range; [exact Hr|reflexivity]).
  unfold in_range in H. apply andb_true_iff in H as [H0 H1].
  now rewrite Qle_bool_iff in H0; rewrite Qlt_bool_iff in H1.
Qed.

Lemma azimuths_in_range_witness :
  exists st',
    capturePCAP false (VLP16Capture.ctor 0) wrap_stream = Ok st' /\
    forallb in_range (stream_azimuths (VLP16Capture.ctor 0) wrap_stream) = true /\
    0 <= last_azimuth st' /\ last_azimuth st' < 36000.
Proof.
  assert (Hs : forallb (checked false) (map snd wrap_stream) = true)
    by (vm_compute; reflexivity).
  assert (Hv : forallb (fun p => valid_positions (data p)) (map snd wrap_stream) = true)
    by (vm_compute; reflexivity).
  exact (azimuths_in_range false (VLP16Capture.ctor 0) wrap_stream
           (calibrated_VLP16 0) Hs Hv).
Defined.

(** * A run without a wrap *)

Lemma nondecreasing_weaken (a b : Q) (l : list Q) :
  b <= a -> nondecreasing a l = true -> nondecreasing b l = true.
Proof.
  destruct l as [|x l]; [reflexivity|]. cbn [nondecreasing].
  intros Hba H. apply andb_true_iff in H as [Hax Hl].
  apply andb_true_iff. split; [|exact Hl].
  apply Qle_bool_iff. apply Qle_bool_iff in Hax. now apply Qle_trans with a.
Qed.

Lemma process_slots_no_wrap (c : VelodyneCapture) (t : Z) (i : Q)
  (slots : list (FiringData * nat)) (st st' : CaptureState) :
  MAX_NUM_LASERS c <> O ->
  nondecreasing (last_azimuth st) (slot_azimuths c i slots) = true ->
  process_slots c t i slots st = Ok st' ->
  queue st' = queue st /\
  exists new,
    points (cloud st') = (points (cloud st) ++ new)%list /\
    map Ok new = reconstructed c i slots.
Proof.
  intros Hm. revert st; induction slots as [|[fd j] slots IH]; intros st Hs Hrun.
  - cbn in Hrun. injection Hrun as <-. split; [reflexivity|].
    exists []. now rewrite List.app_nil_r.
  - cbn [slot_azimuths map fst snd nondecreasing] in Hs.
    apply andb_true_iff in Hs as [Hle Hs]. fold (slot_azimuths c i slots) in Hs.
    assert (Hcr : complete_rotation t (slot_azimuth c i fd j) st = st).
    { unfold complete_rotation.
      replace (Qlt_bool (slot_azimuth c i fd j) (last_azimuth st)) with false;
        [reflexivity|].
      symmetry. apply Qlt_bool_false. now apply Qle_bool_iff. }
    cbn [process_slots] in Hrun. rewrite reconstructed_cons.
    unfold reconstructed at 1, kept. cbn [filter fst snd].
    destruct (below_epsilon (laserReturns fd (j mod MAX_NUM_LASERS c))) eqn:Hd;
      cbn [negb map app].
    + rewrite (process_slot_filtered c t i fd j st Hm Hd), Hcr in Hrun.
      cbn [bind] in Hrun. apply IH; [|exact Hrun].
      apply nondecreasing_weaken with (a := slot_azimuth c i fd j);
        [now apply Qle_bool_iff | exact Hs].
    + unfold process_slot in Hrun.
      destruct (Nat.eqb_spec (MAX_NUM_LASERS c) 0) as [E|_]; [contradiction|].
      rewrite Hd, Hcr in Hrun.
      destruct (reconstruct c (laserReturns fd (j mod MAX_NUM_LASERS c))
                  (j mod MAX_NUM_LASERS c) (slot_azimuth c i fd j)) as [p| |] eqn:Hp;
        try discriminate.
      cbn [bind] in Hrun.
      destruct (IH {| last_azimuth := slot_azimuth c i fd j;
                      cloud := push_back (cloud st) p;
                      queue := queue st |} Hs Hrun) as (Hq & new & Hn & Hr).
      cbn [queue cloud push_back points] in Hq, Hn.
      split; [exact Hq|]. exists (p :: new). split.
      * rewrite Hn, <- app_assoc. reflexivity.
      * cbn [map fst snd app]. now rewrite Hr, Hp.
Qed.

(** X5.  A packet that passes the checks and whose slot azimuths never go
    down, starting at or above [last_azimuth], closes no frame: the queue is
    left as it was and every return that passes the filter lands, in order,
    in the frame in progress. *)
Theorem no_wrap_no_frame :
  forall (NDEBUG : bool) (c : VelodyneCapture) (p : Packet) (st : CaptureState) (t : Z),
    calibrated c = true ->
    size_mismatch (header p) = false ->
    unixtime (header p) = Ok t ->
    NDEBUG = true \/ sensorType_accepted (data p) = true ->
    nondecreasing (last_azimuth st)
      (slot_azimuths c (interpolated (data p)) (packet_slots (data p))) = true ->
    exists st' new,
      process_packet NDEBUG c p st = Ok st' /\
      queue st' = queue st /\
      points (cloud st') = (points (cloud st) ++ new)%list /\
      map Ok new = reconstructed c (interpolated (data p)) (packet_slots (data p)).
Proof.
  intros NDEBUG c p st t Hc Hsize Ht Hs Hnd.
  destruct (calibrated_spec c Hc) as (Hpos & _).
  assert (Hm : MAX_NUM_LASERS c <> O) by (intros E; rewrite E in Hpos; inversion Hpos).
  rewrite (process_packet_slots NDEBUG c p st t Hsize Ht Hs).
  destruct (process_slots_total c t (interpolated (data p)) (packet_slots (data p)) st Hc)
    as [st' E].
  destruct (process_slots_no_wrap c t _ _ st st' Hm Hnd E) as (Hq & new & Hn & Hr).
  exists st', new. auto.
Qed.

Lemma no_wrap_no_frame_witness :
  exists st' new,
    process_packet false (VLP16Capture.ctor 0) (steady_packet 1) initial_state = Ok st' /\
    queue st' = [] /\
    points (cloud st') = new /\
    map Ok new
    = reconstructed (VLP16Capture.ctor 0) (interpolated (data (steady_packet 1)))
        (packet_slots (data (steady_packet 1))).
Proof.
  assert (Ht : unixtime (header (steady_packet 1)) = Ok 10420000%Z)
    by (vm_compute; reflexivity).
  assert (Hnd : nondecreasing (last_azimuth initial_state)
                  (slot_azimuths (VLP16Capture.ctor 0)
                     (interpolated (data (steady_packet 1)))
                     (packet_slots (data (steady_packet 1)))) = true)
    by (vm_compute; reflexivity).
  exact (no_wrap_no_frame false (VLP16Capture.ctor 0) (steady_packet 1) initial_state
           10420000 (calibrated_VLP16 0) eq_refl Ht (or_intror eq_refl) Hnd).
Defined.

(** * The 32-channel sensor *)

Lemma process_slots_no_tables (c : VelodyneCapture) (t : Z) (i : Q)
  (slots : list (FiringData * nat)) (st : CaptureState) :
  lut_cos c = [] -> MAX_NUM_LASERS c <> O ->
  (existsb (kept c) slots = true -> process_slots c t i slots st = Undefined) /\
  (existsb (kept c) slots = false -> exists st', process_slots c t i slots st = Ok st').
Proof.
  intros Hcos Hm. revert st; induction slots as [|[fd j] slots IH]; intros st.
  - split; [discriminate|]. intros _. now exists st.
  - cbn [existsb process_slots]. unfold kept at 1 3. cbn [fst snd].
    destruct (below_epsilon (laserReturns fd (j mod MAX_NUM_LASERS c))) eqn:Hd;
      cbn [negb orb].
    + rewrite (process_slot_filtered c t i fd j st Hm Hd). cbn [bind]. apply IH.
    + split; [intros _|discriminate].
      unfold process_slot.
      destruct (Nat.eqb_spec (MAX_NUM_LASERS c) 0) as [E|_]; [contradiction|].
      rewrite Hd. unfold reconstruct. rewrite Hcos.
      now destruct (j mod MAX_NUM_LASERS c)%nat.
Qed.

(** X6.  On the 32-channel capture object, whose [lut_cos] is empty, a packet
    that passes the checks has no defined behaviour as soon as one of the
    returns it reads passes the filter; it is processed normally only when
    every return read has raw distance 0. *)
Theorem HDL32E_undefined_on_echo :
  forall (NDEBUG : bool) (indeterminate : nat) (p : Packet) (st : CaptureState) (t : Z),
    size_mismatch (header p) = false ->
    unixtime (header p) = Ok t ->
    NDEBUG = true \/ sensorType_accepted (data p) = true ->
    (existsb (kept (HDL32ECapture.ctor indeterminate)) (packet_slots (data p)) = true ->
     process_packet NDEBUG (HDL32ECapture.ctor indeterminate) p st = Undefined) /\
    (existsb (kept (HDL32ECapture.ctor indeterminate)) (packet_slots (data p)) = false ->
     exists st', process_packet NDEBUG (HDL32ECapture.ctor indeterminate) p st = Ok st').
Proof.
  intros NDEBUG g p st t Hsize Ht Hs.
  rewrite (process_packet_slots NDEBUG _ p st t Hsize Ht Hs).
  apply process_slots_no_tables; [reflexivity|discriminate].
Qed.

Lemma HDL32E_undefined_on_echo_witness :
  process_packet false (HDL32ECapture.ctor 0) (steady_packet 1) initial_state = Undefined /\
  exists st',
    process_packet false (HDL32ECapture.ctor 0) (steady_packet 0) initial_state = Ok st'.
Proof.
  assert (Ht1 : unixtime (header (steady_packet 1)) = Ok 10420000%Z)
    by (vm_compute; reflexivity).
  assert (Ht0 : unixtime (header (steady_packet 0)) = Ok 10420000%Z)
    by (vm_compute; reflexivity).
  assert (Hk1 : existsb (kept (HDL32ECapture.ctor 0))
                  (packet_slots (data (steady_packet 1))) = true)
    by (vm_compute; reflexivity).
  assert (Hk0 : existsb (kept (HDL32ECapture.ctor 0))
                  (packet_slots (data (steady_packet 0))) = false)
    by (vm_compute; reflexivity).
  split.
  - exact (proj1 (HDL32E_undefined_on_echo false 0 (steady_packet 1) initial_state
                    10420000 eq_refl Ht1 (or_intror eq_refl)) Hk1).
  - exact (proj2 (HDL32E_undefined_on_echo false 0 (steady_packet 0) initial_state
                    10420000 eq_refl Ht0 (or_intror eq_refl)) Hk0).
Defined.

(** * Geometry of the reconstructed points *)

Lemma sphere (d c2 s2 c1 s1 : R) :
  (s1 * s1 + c1 * c1 = 1)%R -> (s2 * s2 + c2 * c2 = 1)%R ->
  ((d * c2 * s1) * (d * c2 * s1) + (d * c2 * c1) * (d * c2 * c1)
   + (d * s2) * (d * s2) = d * d)%R.
Proof.
  intros H1 H2.
  replace ((d * c2 * s1) * (d * c2 * s1) + (d * c2 * c1) * (d * c2 * c1)
           + (d * s2) * (d * s2))%R
    with (d * d * (c2 * c2 * (s1 * s1 + c1 * c1) + s2 * s2))%R by ring.
  rewrite H1. replace (c2 * c2 * 1 + s2 * s2)%R with (s2 * s2 + c2 * c2)%R by ring.
  rewrite H2. ring.
Qed.

Lemma sin_cos_one (a : R) : (sin a * sin a + cos a * cos a = 1)%R.
Proof. exact (sin2_cos2 a). Qed.

(** X7.  Every point the 16-channel capture object reconstructs, no
    transform being set, lies at distance twice the raw distance from the
    origin: the squares of its coordinates add up to the square of the
    range. *)
Theorem VLP16_point_on_sphere :
  forall (indeterminate : nat) (r : LaserReturn) (m : nat) (azimuth : Q) (p : PointT),
    reconstruct (VLP16Capture.ctor indeterminate) r m azimuth = Ok p ->
    (x p * x p + y p * y p + z p * z p
     = (2 * IZR (Z.of_N (distance r))) * (2 * IZR (Z.of_N (distance r))))%R.
Proof.
  intros g r m azimuth p. unfold reconstruct.
  rewrite VLP16_lut_cos, VLP16_lut_sin, !nth_error_map.
  destruct (nth_error VLP16Capture.lut m) as [angle|]; [|discriminate].
  cbn [option_map].
  change (transformMatrixPtr (VLP16Capture.ctor g)) with (@None Matrix4f).
  intros [= <-]. cbn [x y z].
  replace (IZR (Z.of_N (distance r)) * 2.0)%R
    with (2 * IZR (Z.of_N (distance r)))%R by lra.
  apply sphere; apply sin_cos_one.
Qed.

Lemma VLP16_point_on_sphere_witness :
  exists p : PointT,
    reconstruct (VLP16Capture.ctor 0) (echo 5) 1 150 = Ok p /\
    (x p * x p + y p * y p + z p * z p = (2 * 5) * (2 * 5))%R.
Proof.
  destruct (reconstruct_total (VLP16Capture.ctor 0) (echo 5) 1 150
              (calibrated_VLP16 0)) as [p Hp]; [repeat constructor|].
  exists p. split; [exact Hp|].
  exact (VLP16_point_on_sphere 0 (echo 5) 1 150 p Hp).
Defined.

(** * The transform *)

Lemma reconstruct_transform (c : VelodyneCapture) (M : Matrix4f) (r : LaserReturn)
  (m : nat) (azimuth : Q) :
  transformMatrixPtr c = None ->
  reconstruct (open_transform M c) r m azimuth
  = (p <- reconstruct c r m azimuth ;; Ok (affine M p)).
Proof.
  intros Hn. unfold reconstruct. rewrite Hn.
  cbn [open_transform lut_cos lut_sin transformMatrixPtr].
  destruct (nth_error (lut_cos c) m); [|reflexivity].
  destruct (nth_error (lut_sin c) m); reflexivity.
Qed.

(** X8.  Opening a capture with a transform changes each reconstructed point
    into its image under the matrix and nothing else: with the identity
    matrix the points are the ones reconstructed without a transform, and
    with a pure translation each point is shifted by the translation. *)
Theorem transform_identity_translation :
  forall (c : VelodyneCapture) (r : LaserReturn) (m : nat) (azimuth : Q) (p : PointT),
    transformMatrixPtr c = None ->
    reconstruct c r m azimuth = Ok p ->
    reconstruct (open_transform (translation 0 0 0) c) r m azimuth = Ok p /\
    forall tx ty tz : R,
      reconstruct (open_transform (translation tx ty tz) c) r m azimuth
      = Ok {| x := (x p + tx)%R; y := (y p + ty)%R; z := (z p + tz)%R |}.
Proof.
  intros c r m azimuth p Hn Hp.
  assert (Ht : forall tx ty tz : R,
             reconstruct (open_transform (translation tx ty tz) c) r m azimuth
             = Ok {| x := (x p + tx)%R; y := (y p + ty)%R; z := (z p + tz)%R |}).
  { intros tx ty tz. rewrite (reconstruct_transform c _ r m azimuth Hn), Hp.
    cbn [bind]. unfold affine, coeff, translation. cbn [Nat.eqb].
    f_equal. f_equal; ring. }
  split; [|exact Ht].
  rewrite Ht. destruct p as [px py pz]. cbn [x y z]. f_equal. f_equal; ring.
Qed.

Lemma transform_identity_translation_witness :
  exists p : PointT,
    reconstruct (VLP16Capture.ctor 0) (echo 5) 1 150 = Ok p /\
    reconstruct (open_transform (translation 0 0 0) (VLP16Capture.ctor 0)) (echo 5) 1 150
    = Ok p.
Proof.
  destruct (reconstruct_total (VLP16Capture.ctor 0) (echo 5) 1 150
              (calibrated_VLP16 0)) as [p Hp]; [repeat constructor|].
  exists p. split; [exact Hp|].
  exact (proj1 (transform_identity_translation (VLP16Capture.ctor 0) (echo 5) 1 150 p
                  eq_refl Hp)).
Defined.

(** * The queue between the capture thread and its consumer *)

Lemma interleave_front (rest : list Methods.action) (s : Methods.Members)
  (cloud front : PointCloudPtrT) (q delivered : list PointCloudPtrT) :
  Methods.queue s = front :: q ->
  Methods.interleave (Methods.Retrieve true :: rest) s cloud delivered
  = Methods.interleave rest (Methods.set_queue q s) front (delivered ++ [front])%list.
Proof.
  intros Hq. cbn [Methods.interleave]. unfold Methods.retrieve, retrieve.
  rewrite Hq. reflexivity.
Qed.

Lemma interleave_nothing (rest : list Methods.action) (s : Methods.Members)
  (cloud : PointCloudPtrT) (delivered : list PointCloudPtrT) (try_lock : bool) :
  try_lock = false \/ Methods.queue s = [] ->
  Methods.interleave (Methods.Retrieve try_lock :: rest) s cloud delivered
  = Methods.interleave rest (Methods.set_queue (Methods.queue s) s) cloud delivered.
Proof.
  intros H. cbn [Methods.interleave]. unfold Methods.retrieve, retrieve.
  destruct H as [-> | Hq]; [reflexivity|].
  rewrite Hq. now destruct try_lock.
Qed.

Lemma interleave_delivered (actions : list Methods.action) (s : Methods.Members)
  (cloud : PointCloudPtrT) (delivered : list PointCloudPtrT) :
  exists new,
    snd (Methods.interleave actions s cloud delivered) = (delivered ++ new)%list /\
    (new ++ Methods.queue (fst (fst (Methods.interleave actions s cloud delivered)))
     = Methods.queue s ++ Methods.produced actions)%list /\
    snd (fst (Methods.interleave actions s cloud delivered)) = last new cloud.
Proof.
  revert s cloud delivered.
  induction actions as [|[e|try_lock] actions IH]; intros s cloud delivered.
  - exists []. cbn. now rewrite !List.app_nil_r.
  - cbn [Methods.interleave].
    destruct (IH (Methods.produce s e) cloud delivered) as (new & H1 & H2 & H3).
    exists new. split; [exact H1|]. split; [|exact H3].
    rewrite H2. destruct e as [f|]; cbn; [|reflexivity].
    unfold push. now rewrite <- app_assoc.
  - change (Methods.produced (Methods.Retrieve try_lock :: actions))
      with (Methods.produced actions).
    destruct try_lock.
    + destruct (Methods.queue s) as [|front q] eqn:Hq.
      * rewrite (interleave_nothing actions s cloud delivered true) by now right.
        rewrite Hq.
        destruct (IH (Methods.set_queue [] s) cloud delivered) as (new & H1 & H2 & H3).
        exists new. auto.
      * rewrite (interleave_front actions s cloud front q delivered Hq).
        destruct (IH (Methods.set_queue q s) front (delivered ++ [front])%list)
          as (new & H1 & H2 & H3).
        exists (front :: new). split; [now rewrite H1, <- app_assoc|].
        split; [rewrite <- !app_comm_cons, H2; reflexivity|].
        now rewrite last_cons_default.
    + rewrite (interleave_nothing actions s cloud delivered false) by now left.
      destruct (IH (Methods.set_queue (Methods.queue s) s) cloud delivered)
        as (new & H1 & H2 & H3).
      exists new. auto.
Qed.

(** X9.  Whatever the interleaving of pushes by the capture thread, of its
    end, and of calls to [retrieve] by one consumer, with or without the
    lock: the frames handed to the consumer followed by the frames still
    queued are the frames queued at the start followed by the frames pushed,
    in that order - none lost, none twice, none out of order - and the
    consumer's cloud is the last frame handed over (its initial value when
    there was none). *)
Theorem retrieve_is_fifo :
  forall (actions : list Methods.action) (s : Methods.Members) (cloud : PointCloudPtrT),
    (snd (Methods.interleave actions s cloud [])
     ++ Methods.queue (fst (fst (Methods.interleave actions s cloud [])))
     = Methods.queue s ++ Methods.produced actions)%list /\
    snd (fst (Methods.interleave actions s cloud []))
    = last (snd (Methods.interleave actions s cloud [])) cloud.
Proof.
  intros actions s cloud.
  destruct (interleave_delivered actions s cloud []) as (new & H1 & H2 & H3).
  cbn [app] in H1. rewrite H1. auto.
Qed.

Lemma drain_steps (k : nat) (s : Methods.Members) (cloud : PointCloudPtrT)
  (delivered : list PointCloudPtrT) :
  (k <= List.length (Methods.queue s))%nat ->
  Methods.interleave (repeat (Methods.Retrieve true) k) s cloud delivered
  = (Methods.set_queue (skipn k (Methods.queue s)) s,
     last (firstn k (Methods.queue s)) cloud,
     (delivered ++ firstn k (Methods.queue s))%list).
Proof.
  revert s cloud delivered; induction k as [|k IH]; intros s cloud delivered Hk.
  - cbn. rewrite List.app_nil_r. now destruct s.
  - destruct (Methods.queue s) as [|front q] eqn:Hq; [cbn in Hk; inversion Hk|].
    cbn [repeat]. rewrite (interleave_front _ s cloud front q delivered Hq).
    rewrite IH by (cbn in *; now apply le_S_n).
    cbn [Methods.set_queue Methods.queue Methods.pcap Methods.filename
         Methods.thread Methods.run skipn firstn].
    rewrite last_cons_default, <- app_assoc. reflexivity.
Qed.

(** X10.  Once the capture thread has ended, [isRun] holds exactly while
    frames remain queued: [k] calls to [retrieve] that get the lock hand
    over the [k] oldest frames in order, and [isRun] turns false with the
    call that takes the last one. *)
Theorem drain_after_end :
  forall (s : Methods.Members) (cloud : PointCloudPtrT) (k : nat),
    Methods.run s = false ->
    (k <= List.length (Methods.queue s))%nat ->
    snd (Methods.interleave (repeat (Methods.Retrieve true) k) s cloud [])
    = firstn k (Methods.queue s) /\
    Methods.queue (fst (fst (Methods.interleave (repeat (Methods.Retrieve true) k) s cloud [])))
    = skipn k (Methods.queue s) /\
    (Methods.isRun (fst (fst (Methods.interleave (repeat (Methods.Retrieve true) k) s cloud [])))
     = true <-> (k < List.length (Methods.queue s))%nat).
Proof.
  intros s cloud k Hrun Hk. rewrite (drain_steps k s cloud [] Hk).
  cbn [fst snd app]. split; [reflexivity|]. split; [reflexivity|].
  change (Methods.isRun (Methods.set_queue (skipn k (Methods.queue s)) s))
    with (Methods.run s
          || negb (match skipn k (Methods.queue s) with [] => true | _ => false end)).
  rewrite Hrun. cbn [orb].
  pose proof (length_skipn k (Methods.queue s)) as Hl.
  destruct (skipn k (Methods.queue s)) as [|f q]; cbn [negb List.length] in *.
  - split; [discriminate|]. intros Hlt. exfalso.
    assert (H : (List.length (Methods.queue s) <= k)%nat)
      by (apply Nat.sub_0_le; now symmetry).
    apply (Nat.lt_irrefl k).
    now apply Nat.lt_le_trans with (List.length (Methods.queue s)).
  - split; [intros _|reflexivity].
    destruct (Nat.lt_ge_cases k (List.length (Methods.queue s))) as [H|H]; [exact H|].
    apply Nat.sub_0_le in H. rewrite H in Hl. discriminate Hl.
Qed.

Lemma drain_after_end_witness :
  snd (Methods.interleave (repeat (Methods.Retrieve true) 2)
         {| Methods.pcap := Some 1%nat; Methods.filename := "a.pcap";
            Methods.thread := true; Methods.run := false;
            Methods.queue := [Some new_PointCloudT; None] |} None [])
  = [Some new_PointCloudT; None].
Proof.
  exact (proj1 (drain_after_end
                  {| Methods.pcap := Some 1%nat; Methods.filename := "a.pcap";
                     Methods.thread := true; Methods.run := false;
                     Methods.queue := [Some new_PointCloudT; None] |}
                  None 2 eq_refl (le_n 2))).
Defined.

(** * Opening and closing *)

Lemma isRun_false (s : Methods.Members) :
  Methods.isRun s = false -> Methods.run s = false /\ Methods.queue s = [].
Proof.
  unfold Methods.isRun. intros H. apply orb_false_iff in H as [Hr Hq].
  split; [exact Hr|]. now destruct (Methods.queue s).
Qed.

(** X11.  Whatever the state of the object, [open] leaves an empty queue
    behind: frames of an earlier capture that were not retrieved are
    discarded.  When it returns, it returns [true] and the object, as [open]
    hands it to the new thread, is open, running, and bears the new file
    name; when it throws, the object is not running. *)
Theorem open_discards_queue :
  forall (answers : Methods.pcap_answers) (name : string) (s : Methods.Members),
    match Methods.open answers name s with
    | Methods.Returned b s' =>
        b = true /\ Methods.isOpen s' = true /\ Methods.isRun s' = true /\
        Methods.queue s' = [] /\ Methods.filename s' = name
    | Methods.Thrown s' =>
        Methods.isRun s' = false /\ Methods.queue s' = []
    end.
Proof.
  intros answers name s. unfold Methods.open.
  assert (H : Methods.isRun (if Methods.isRun s then Methods.close s else s) = false /\
              Methods.queue (if Methods.isRun s then Methods.close s else s) = []).
  { destruct (Methods.isRun s) eqn:E; [split; reflexivity|].
    split; [exact E|]. now apply isRun_false. }
  destruct H as [Hr Hq].
  destruct (Methods.pcap_open_offline answers) as [handle|]; [|now split].
  destruct (Methods.pcap_compile answers =? -1)%Z; [now split|].
  destruct (Methods.pcap_setfilter answers =? -1)%Z; [now split|].
  cbn [Methods.isOpen Methods.isRun Methods.pcap Methods.run Methods.queue
       Methods.filename orb].
  auto.
Qed.

Lemma close_retrieve (bs : list bool) (s : Methods.Members) (cloud : PointCloudPtrT)
  (delivered : list PointCloudPtrT) :
  Methods.interleave (map Methods.Retrieve bs) (Methods.close s) cloud delivered
  = (Methods.close s, cloud, delivered).
Proof.
  induction bs as [|b bs IH]; [reflexivity|].
  cbn [map]. rewrite (interleave_nothing _ (Methods.close s) cloud delivered b)
    by (right; reflexivity).
  exact IH.
Qed.

(** X12.  After [close] the object is neither open nor running and its queue
    is empty; a second [close] changes nothing; and no call to [retrieve]
    that follows, with or without the lock, hands over a frame or touches the
    caller's cloud. *)
Theorem close_resets :
  forall (s : Methods.Members) (bs : list bool) (cloud : PointCloudPtrT),
    Methods.isOpen (Methods.close s) = false /\
    Methods.isRun (Methods.close s) = false /\
    Methods.getQueueSize (Methods.close s) = O /\
    Methods.close (Methods.close s) = Methods.close s /\
    Methods.interleave (map Methods.Retrieve bs) (Methods.close s) cloud []
    = (Methods.close s, cloud, []).
Proof.
  intros s bs cloud. repeat split. apply close_retrieve.
Qed.

(** * The blocking retrieve *)

Lemma produce_all_app (a b : list Methods.event) (s : Methods.Members) :
  Methods.produce_all (a ++ b) s = Methods.produce_all b (Methods.produce_all a s).
Proof. unfold Methods.produce_all. apply fold_left_app. Qed.

Lemma produce_all_queue (es : list Methods.event) (s : Methods.Members) :
  Methods.queue (Methods.produce_all es s)
  = (Methods.queue s ++ Methods.pushed es)%list.
Proof.
  revert s; induction es as [|e es IH]; intros s.
  - cbn. now rewrite List.app_nil_r.
  - change (Methods.produce_all (e :: es) s)
      with (Methods.produce_all es (Methods.produce s e)).
    rewrite IH. destruct e as [f|]; cbn; [|reflexivity].
    unfold push. now rewrite <- app_assoc.
Qed.

Lemma produce_all_silent (es : list Methods.event) (s : Methods.Members) :
  Methods.pushed es = [] -> ~ In Methods.Ended es ->
  Methods.produce_all es s = s.
Proof.
  revert s; induction es as [|e es IH]; intros s Hp He; [reflexivity|].
  destruct e as [f|]; [discriminate Hp|].
  exfalso. apply He. now left.
Qed.

Lemma pushed_app (a b : list Methods.event) :
  Methods.pushed (a ++ b) = (Methods.pushed a ++ Methods.pushed b)%list.
Proof. unfold Methods.pushed. apply flat_map_app. Qed.

Lemma retrieve_block_spec (world : list (list Methods.event * list Methods.event))
  (s : Methods.Members) (cloud : PointCloudPtrT) :
  Methods.retrieve_block world s cloud <> Undefined /\
  forall s' c',
    Methods.retrieve_block world s cloud = Ok (Some (s', c')) ->
    exists done rest,
      Methods.events_of world = (done ++ rest)%list /\
      ((c' = cloud /\ Methods.run s' = false /\
        Methods.queue s' = (Methods.queue s ++ Methods.pushed done)%list) \/
       c' :: Methods.queue s' = (Methods.queue s ++ Methods.pushed done)%list).
Proof.
  revert s; induction world as [|[before between] world IH]; intros s.
  - split; [discriminate|]. intros s' c' H. discriminate H.
  - cbn [Methods.retrieve_block].
    set (s1 := Methods.produce_all before s).
    set (s2 := Methods.produce_all between s1).
    assert (Hq2 : Methods.queue s2
                  = (Methods.queue s ++ Methods.pushed (before ++ between))%list).
    { unfold s2, s1. rewrite <- produce_all_app. apply produce_all_queue. }
    assert (Hq1 : Methods.queue s2
                  = (Methods.queue s1 ++ Methods.pushed between)%list)
      by apply produce_all_queue.
    change (Methods.events_of ((before, between) :: world))
      with ((before ++ between) ++ Methods.events_of world)%list.
    unfold Methods.getQueueSize.
    destruct (Methods.queue s1) as [|f1 q1] eqn:E1; cbn [List.length Nat.eqb].
    + destruct (Methods.run s2) eqn:Er; cbn [negb].
      * destruct (IH s2) as [Hu Hr]. split; [exact Hu|].
        intros s' c' H. destruct (Hr s' c' H) as (done & rest & He & Hc).
        exists ((before ++ between) ++ done)%list, rest.
        split; [now rewrite He, app_assoc|].
        rewrite (pushed_app (before ++ between) done), app_assoc, <- Hq2.
        exact Hc.
      * split; [discriminate|]. intros s' c' [= <- <-].
        exists (before ++ between)%list, (Methods.events_of world).
        split; [reflexivity|]. left. auto.
    + rewrite Hq1. cbn [app]. split; [discriminate|].
      intros s' c' [= <- <-].
      exists (before ++ between)%list, (Methods.events_of world).
      split; [reflexivity|]. right.
      cbn [Methods.set_queue Methods.queue]. rewrite <- Hq2, Hq1. reflexivity.
Qed.

(** X13.  [retrieve_block], with the capture thread running between its
    steps: it never reads the front of an empty queue; when it returns, it
    has either popped the oldest frame of the queue (the frames queued at the
    call, then those pushed since) or left the caller's cloud as it was,
    having read [run] as false - and in that case the queue need not be
    empty: a frame pushed between the size check and the read of [run] stays
    behind.  While the thread is alive and pushes nothing, it keeps
    polling. *)
Theorem retrieve_block_oldest_or_ended :
  forall (world : list (list Methods.event * list Methods.event))
         (s : Methods.Members) (cloud : PointCloudPtrT),
    Methods.retrieve_block world s cloud <> Undefined /\
    (forall s' c',
        Methods.retrieve_block world s cloud = Ok (Some (s', c')) ->
        exists done rest,
          Methods.events_of world = (done ++ rest)%list /\
          ((c' = cloud /\ Methods.run s' = false /\
            Methods.queue s' = (Methods.queue s ++ Methods.pushed done)%list) \/
           c' :: Methods.queue s' = (Methods.queue s ++ Methods.pushed done)%list)) /\
    (forall f : PointCloudPtrT,
        Methods.queue s = [] -> Methods.run s = true ->
        exists s',
          Methods.retrieve_block [([], [Methods.Pushed f; Methods.Ended])] s cloud
          = Ok (Some (s', cloud)) /\
          Methods.queue s' = [f]) /\
    (Methods.queue s = [] -> Methods.run s = true ->
     Forall (fun turn => fst turn = [] /\ snd turn = []) world ->
     Methods.retrieve_block world s cloud = Ok None).
Proof.
  intros world s cloud.
  destruct (retrieve_block_spec world s cloud) as [Hu Hr].
  split; [exact Hu|]. split; [exact Hr|]. split.
  - intros f Hq Hrun. cbn [Methods.retrieve_block Methods.produce_all fold_left].
    unfold Methods.getQueueSize. rewrite Hq. cbn.
    eexists. split; [reflexivity|]. cbn. now rewrite Hq.
  - intros Hq Hrun Hw. clear Hu Hr.
    induction Hw as [|[before between] world [Hb1 Hb2] _ IH]; [reflexivity|].
    cbn [fst snd] in Hb1, Hb2. subst before between.
    cbn [Methods.retrieve_block Methods.produce_all fold_left].
    unfold Methods.getQueueSize. rewrite Hq, Hrun. cbn [List.length Nat.eqb negb].
    exact IH.
Qed.

Lemma retrieve_block_oldest_or_ended_witness :
  Methods.retrieve_block
    [([], []); ([Methods.Pushed (Some new_PointCloudT)], [Methods.Pushed None])]
    {| Methods.pcap := Some 1%nat; Methods.filename := "a.pcap";
       Methods.thread := true; Methods.run := true; Methods.queue := [] |}
    None
  = Ok (Some ({| Methods.pcap := Some 1%nat; Methods.filename := "a.pcap";
                 Methods.thread := true; Methods.run := true;
                 Methods.queue := [None] |},
              Some new_PointCloudT)) /\
  exists done rest,
    Methods.events_of
      [([], []); ([Methods.Pushed (Some new_PointCloudT)], [Methods.Pushed None])]
    = (done ++ rest)%list /\
    (Some new_PointCloudT :: [None] = [] ++ Methods.pushed done)%list.
Proof.
  split; [reflexivity|].
  destruct (proj1 (proj2 (retrieve_block_oldest_or_ended
              [([], []); ([Methods.Pushed (Some new_PointCloudT)], [Methods.Pushed None])]
              {| Methods.pcap := Some 1%nat; Methods.filename := "a.pcap";
                 Methods.thread := true; Methods.run := true; Methods.queue := [] |}
              None))
            {| Methods.pcap := Some 1%nat; Methods.filename := "a.pcap";
               Methods.thread := true; Methods.run := true;
               Methods.queue := [None] |}
            (Some new_PointCloudT) eq_refl)
    as (done & rest & He & [(Hc & _) | Hc]).
  - discriminate Hc.
  - exists done, rest. split; [exact He|exact Hc].
Defined.

(** * Ordering of [Laser] *)

(** X14.  On lasers with finite azimuths, [operator <] is a strict weak
    order: no laser is below itself, the relation is asymmetric and
    transitive, and two lasers are unordered exactly when they have the same
    azimuth and the same [id]. *)
Theorem Laser_lt_strict_weak_order :
  (forall a, Laser.lt a a = false) /\
  (forall a b, Laser.lt a b = true -> Laser.lt b a = false) /\
  (forall a b c, Laser.lt a b = true -> Laser.lt b c = true -> Laser.lt a c = true) /\
  (forall a b,
      Laser.lt a b = false /\ Laser.lt b a = false <->
      Laser.azimuth a == Laser.azimuth b /\ Laser.id a = Laser.id b).
Proof.
  assert (Hcase : forall a b,
             (Laser.lt a b = true <->
              Laser.azimuth a < Laser.azimuth b \/
              (Laser.azimuth a == Laser.azimuth b /\ (Laser.id a < Laser.id b)%N))).
  { intros a b. unfold Laser.lt.
    destruct (Qeq_bool (Laser.azimuth a) (Laser.azimuth b)) eqn:E.
    - apply Qeq_bool_iff in E. rewrite N.ltb_lt. split.
      + intros H. right. now split.
      + intros [H | [_ H]]; [rewrite E in H; now apply Qlt_irrefl in H | exact H].
    - rewrite Qlt_bool_iff. split; [now left|].
      intros [H | [H _]]; [exact H|].
      apply Qeq_bool_iff in H. congruence. }
  assert (Hneg : forall a b,
             (Laser.lt a b = false <->
              ~ (Laser.azimuth a < Laser.azimuth b \/
                 (Laser.azimuth a == Laser.azimuth b /\ (Laser.id a < Laser.id b)%N)))).
  { intros a b. rewrite <- Hcase. now destruct (Laser.lt a b). }
  split; [|split; [|split]].
  - intros a. apply Hneg. intros [H | [_ H]].
    + now apply Qlt_irrefl in H.
    + now apply N.lt_irrefl in H.
  - intros a b Hab. apply Hcase in Hab. apply Hneg. intros Hba.
    destruct Hab as [H1 | [E1 H1]], Hba as [H2 | [E2 H2]].
    + apply (Qlt_irrefl (Laser.azimuth a)). now apply Qlt_trans with (Laser.azimuth b).
    + rewrite E2 in H1. now apply Qlt_irrefl in H1.
    + rewrite E1 in H2. now apply Qlt_irrefl in H2.
    + apply (N.lt_irrefl (Laser.id a)). now apply N.lt_trans with (Laser.id b).
  - intros a b c Hab Hbc. apply Hcase in Hab. apply Hcase in Hbc. apply Hcase.
    destruct Hab as [H1 | [E1 H1]], Hbc as [H2 | [E2 H2]].
    + left. now apply Qlt_trans with (Laser.azimuth b).
    + left. now rewrite <- E2.
    + left. now rewrite E1.
    + right. split; [now rewrite E1|]. now apply N.lt_trans with (Laser.id b).
  - intros a b. rewrite !Hneg. split.
    + intros [Hab Hba].
      assert (E : Laser.azimuth a == Laser.azimuth b).
      { destruct (Q_dec (Laser.azimuth a) (Laser.azimuth b)) as [[H|H]|H].
        - exfalso. apply Hab. now left.
        - exfalso. apply Hba. now left.
        - exact H. }
      split; [exact E|].
      destruct (N.lt_trichotomy (Laser.id a) (Laser.id b)) as [H|[H|H]].
      * exfalso. apply Hab. right. now split.
      * exact H.
      * exfalso. apply Hba. right. split; [now symmetry|exact H].
    + intros [E Hid]. split; intros [H | [_ H]].
      * rewrite E in H. now apply Qlt_irrefl in H.
      * rewrite Hid in H. now apply N.lt_irrefl in H.
      * rewrite E in H. now apply Qlt_irrefl in H.
      * rewrite Hid in H. now apply N.lt_irrefl in H.
Qed.

Lemma Laser_lt_strict_weak_order_witness :
  Laser.lt
    {| Laser.azimuth := 1.5; Laser.vertical := -15; Laser.distance := 100;
       Laser.intensity := 7; Laser.id := 3; Laser.time := 0 |}
    {| Laser.azimuth := 3 # 2; Laser.vertical := 1; Laser.distance := 100;
       Laser.intensity := 7; Laser.id := 3; Laser.time := 0 |}
  = false.
Proof.
  refine (proj1 (proj2 (proj2 (proj2 (proj2 Laser_lt_strict_weak_order)) _ _) _)).
  split; reflexivity.
Defined.

(** * The stopwatch *)

Lemma append_assoc (a b c : string) : ((a ++ b) ++ c = a ++ b ++ c)%string.
Proof. induction a as [|ch a IH]; cbn; [reflexivity|now rewrite IH]. Qed.

(** X15.  A [tic] followed by a [toc] writes the name of the stopwatch once,
    whatever the flag given to [tic]: before the dots when [tic] prints it,
    before the colon when [toc] does; then the elapsed time between the two
    calls and the end of the line. *)
Theorem tic_toc_names_once :
  forall (commaFix : Z -> string) (cast : Z -> Z) (now0 now1 : Z) (flag : bool)
         (w : MicroStopwatch.MicroStopwatch),
    (snd (MicroStopwatch.tic now0 flag w)
     ++ snd (MicroStopwatch.toc commaFix cast now1
               (fst (MicroStopwatch.tic now0 flag w))))%string
    = (MicroStopwatch.name w ++ (if flag then "... " else ": ")
       ++ commaFix (cast (now1 - now0)%Z) ++ " us" ++ MicroStopwatch.endl)%string.
Proof.
  intros commaFix cast now0 now1 flag w.
  unfold MicroStopwatch.toc, MicroStopwatch.toc_string, MicroStopwatch.tic.
  destruct flag; cbn [fst snd negb MicroStopwatch.ticPrintName MicroStopwatch.name
                      MicroStopwatch.tictic String.append];
    now rewrite !append_assoc.
Qed.

Lemma tocs_cons (commaFix : Z -> string) (cast : Z -> Z) (now : Z) (rest : list Z)
  (w : MicroStopwatch.MicroStopwatch) :
  fst (MicroStopwatch.tocs commaFix cast (now :: rest) w)
  = fst (MicroStopwatch.tocs commaFix cast rest
           (fst (MicroStopwatch.toc commaFix cast now w))).
Proof.
  cbn [MicroStopwatch.tocs].
  destruct (MicroStopwatch.toc commaFix cast now w) as [w1 t1]. cbn [fst].
  now destruct (MicroStopwatch.tocs commaFix cast rest w1).
Qed.

(** X16.  [toc] does not restart the stopwatch: after any number of [toc]s
    that follow one [tic], each has measured from that [tic], so the total is
    the earlier total plus the sum of the times since the [tic], and the
    current value is the last of them (the member type being wide enough for
    the values). *)
Theorem tocs_measure_from_tic :
  forall (commaFix : Z -> string) (cast : Z -> Z) (times : list Z)
         (w : MicroStopwatch.MicroStopwatch),
    (forall v, cast v = v) ->
    MicroStopwatch.tictic (fst (MicroStopwatch.tocs commaFix cast times w))
    = MicroStopwatch.tictic w /\
    MicroStopwatch.elapsedTotal (fst (MicroStopwatch.tocs commaFix cast times w))
    = (MicroStopwatch.elapsedTotal w
       + Zsum (map (fun now => (now - MicroStopwatch.tictic w)%Z) times))%Z /\
    MicroStopwatch.elapsedCurrent (fst (MicroStopwatch.tocs commaFix cast times w))
    = last (map (fun now => (now - MicroStopwatch.tictic w)%Z) times)
        (MicroStopwatch.elapsedCurrent w).
Proof.
  intros commaFix cast times w Hcast. revert w.
  induction times as [|now rest IH]; intros w.
  - cbn. split; [reflexivity|]. split; [|reflexivity]. now rewrite Z.add_0_r.
  - rewrite tocs_cons.
    destruct (IH (fst (MicroStopwatch.toc commaFix cast now w))) as (H1 & H2 & H3).
    rewrite H1, H2, H3.
    unfold MicroStopwatch.toc, MicroStopwatch.toc_string.
    cbn [fst MicroStopwatch.tictic MicroStopwatch.elapsedTotal
         MicroStopwatch.elapsedCurrent map].
    rewrite !Hcast, last_cons_default. split; [reflexivity|].
    split; [|reflexivity]. unfold Zsum. cbn [fold_right].
    now rewrite Z.add_assoc.
Qed.

Lemma tocs_measure_from_tic_witness :
  MicroStopwatch.elapsedTotal
    (fst (MicroStopwatch.tocs (fun _ => EmptyString) (fun v => v) [15; 18]%Z
            {| MicroStopwatch.elapsedCurrent := 0; MicroStopwatch.elapsedTotal := 0;
               MicroStopwatch.name := "w"; MicroStopwatch.tictic := 10;
               MicroStopwatch.toctoc := 0; MicroStopwatch.ticPrintName := false |}))
  = 13%Z.
Proof.
  exact (proj1 (proj2 (tocs_measure_from_tic (fun _ => EmptyString) (fun v => v)
                         [15; 18]%Z
                         {| MicroStopwatch.elapsedCurrent := 0;
                            MicroStopwatch.elapsedTotal := 0;
                            MicroStopwatch.name := "w"; MicroStopwatch.tictic := 10;
                            MicroStopwatch.toctoc := 0;
                            MicroStopwatch.ticPrintName := false |}
                         (fun v => eq_refl)))).
Defined.

Lemma unixtime_microseconds_witness :
  exists v,
    unixtime (pkthdr 10 42 1248) = Ok v /\
    (v = 10 * 10 ^ 6 + 42 <-> 42 = 0 \/ 100000 <= 42)%Z.
Proof.
  apply (unixtime_microseconds 10 42 1248 1248); split; (reflexivity || discriminate).
Defined.

(** * What a packet is read for *)

Lemma for_loop_ext {St : Type} (n start : nat) (body body' : nat -> St -> result St)
  (s : St) :
  (forall i s, body i s = body' i s) ->
  for_loop n start body s = for_loop n start body' s.
Proof.
  intros H. revert start s; induction n as [|n IH]; intros start s; [reflexivity|].
  cbn [for_loop]. rewrite H. destruct (body' start s); cbn [bind]; auto.
Qed.

Lemma process_slot_reads (c : VelodyneCapture) (t : Z) (i : Q) (fd fd' : FiringData)
  (j : nat) (st : CaptureState) :
  rotationalPosition fd' = rotationalPosition fd ->
  (forall k, (k < MAX_NUM_LASERS c)%nat ->
             distance (laserReturns fd' k) = distance (laserReturns fd k)) ->
  process_slot c t i fd' j st = process_slot c t i fd j st.
Proof.
  intros Hrp Hd. unfold process_slot.
  destruct (Nat.eqb_spec (MAX_NUM_LASERS c) 0) as [E|Hm]; [reflexivity|].
  assert (Hk := Hd (j mod MAX_NUM_LASERS c)%nat (Nat.mod_upper_bound j _ Hm)).
  unfold slot_azimuth, below_epsilon, reconstruct. now rewrite Hrp, Hk.
Qed.

(** X18.  Of a packet that has the right size, the thread reads the capture
    time, the sensor type, the rotational position of each firing block and
    the raw distance of the returns at indices below [MAX_NUM_LASERS], and
    nothing else: two packets that agree on these are processed alike.  In
    particular intensities are never read, nor are the returns 16 to 31 of a
    block on the 16-channel sensor. *)
Theorem process_packet_reads :
  forall (NDEBUG : bool) (c : VelodyneCapture) (p p' : Packet) (st : CaptureState),
    header p' = header p ->
    sensorType (data p') = sensorType (data p) ->
    (forall f, rotationalPosition (firingData (data p') f)
               = rotationalPosition (firingData (data p) f)) ->
    (forall f k, (k < MAX_NUM_LASERS c)%nat ->
                 distance (laserReturns (firingData (data p') f) k)
                 = distance (laserReturns (firingData (data p) f) k)) ->
    process_packet NDEBUG c p' st = process_packet NDEBUG c p st.
Proof.
  intros NDEBUG c p p' st Hh Hs Hrp Hd. unfold process_packet.
  rewrite Hh. destruct (size_mismatch (header p)); [reflexivity|].
  assert (Hi : interpolated (data p') = interpolated (data p))
    by (unfold interpolated; now rewrite !Hrp).
  assert (Ha : sensorType_accepted (data p') = sensorType_accepted (data p))
    by (unfold sensorType_accepted; now rewrite Hs).
  assert (Hf : forall t s, process_firings c t (data p') s
                           = process_firings c t (data p) s).
  { intros t s. unfold process_firings. rewrite Hi.
    apply for_loop_ext. intros f s1. unfold process_firing.
    apply for_loop_ext. intros j s2.
    apply process_slot_reads; [apply Hrp | apply Hd]. }
  rewrite Ha.
  destruct (unixtime (header p)) as [t| |]; cbn [bind];
    [|exact eq_refl|exact eq_refl].
  destruct (negb NDEBUG && negb (sensorType_accepted (data p)));
    [exact eq_refl | apply Hf].
Qed.

Lemma process_packet_reads_witness :
  process_packet false (VLP16Capture.ctor 0)
    {| header := pkthdr 10 42 1248;
       data := {| firingData := fun _ => block 100 (single_echo 20 9);
                  gpsTimestamp := 5; mode := 0x39; sensorType := 0x22 |} |}
    initial_state
  = process_packet false (VLP16Capture.ctor 0) (steady_packet 0) initial_state.
Proof.
  apply process_packet_reads; try reflexivity.
  intros f k Hk. cbn [data steady_packet payload firingData block laserReturns].
  unfold single_echo.
  destruct (Nat.eqb_spec k 20) as [->|_]; [|reflexivity].
  exfalso. change (MAX_NUM_LASERS (VLP16Capture.ctor 0)) with 16%nat in Hk.
  do 16 (apply le_S_n in Hk). inversion Hk.
Defined.

(** * The stamp of a completed rotation *)

(** C1.  The capture [stamped_stream] on the 16-channel object: the first
    slot of the second packet finds [last_azimuth] at 35000 above its azimuth
    100, so the frame of the 384 points of the first packet is closed before
    the return of that slot is processed - it is pushed with [width] 384 and
    [height] 1, it is the only frame queued, and the 384 points of the second
    packet are in the new frame.  Its stamp is 10420000, the text of 10
    followed by 42 padded on the right, and not the Unix time in microseconds
    of the packet, 10 s 42 us. *)
Theorem rotation_stamp_left_justified :
  exists (st' : CaptureState) (frame : PointCloudT),
    capturePCAP false (VLP16Capture.ctor 0) stamped_stream = Ok st' /\
    queue st' = [Some frame] /\
    List.length (points frame) = 384%nat /\
    width frame = 384%Z /\
    height frame = 1%Z /\
    List.length (points (cloud st')) = 384%nat /\
    stamp frame = 10420000%Z /\
    stamp frame
    <> (tv_sec (ts (header (steady_packet 1))) * 10 ^ 6
        + tv_usec (ts (header (steady_packet 1))))%Z.
Proof.
  assert (Hm : MAX_NUM_LASERS (VLP16Capture.ctor 0) <> O) by discriminate.
  assert (Hs : forallb (checked false) (map snd stamped_stream) = true)
    by (vm_compute; reflexivity).
  destruct (capture_loop_total false (VLP16Capture.ctor 0) stamped_stream initial_state
              (calibrated_VLP16 0) Hs) as [st' E].
  destruct (capture_loop_frames false (VLP16Capture.ctor 0) stamped_stream
              initial_state st' Hm E) as [Q S].
  destruct (capture_loop_queue false (VLP16Capture.ctor 0) stamped_stream
              initial_state st' E) as (pushed & counts & Qq & F & _).
  assert (Hf : fst (stream_frames (VLP16Capture.ctor 0) stamped_stream
                      (last_azimuth initial_state)
                      (List.length (points (cloud initial_state))))
               = [(10420000%Z, 384%nat)])
    by (vm_compute; reflexivity).
  assert (Hn : snd (snd (stream_frames (VLP16Capture.ctor 0) stamped_stream
                           (last_azimuth initial_state)
                           (List.length (points (cloud initial_state)))))
               = 384%nat)
    by (vm_compute; reflexivity).
  rewrite Hf in Q. apply (f_equal snd) in S. rewrite Hn in S. cbn [snd] in S.
  change (queue initial_state) with (@nil PointCloudPtrT) in Q, Qq.
  cbn [map] in Q. rewrite List.app_nil_l in Q, Qq. rewrite <- Qq in F.
  clear Qq Hf Hn Hs.
  destruct (queue st') as [|[frame|] [|g rest]] eqn:Hq; cbn [map] in Q;
    try discriminate Q.
  exists st', frame. unfold frame_summary in Q. cbn [stamp_of frame_size] in Q.
  injection Q as Hstamp Hsize.
  cbn [forallb finalized] in F. rewrite andb_true_r in F.
  apply andb_true_iff in F as [Hh Hw].
  apply Z.eqb_eq in Hh. apply Z.eqb_eq in Hw. rewrite Hsize in Hw.
  rewrite capturePCAP_loop.
  split; [exact E|]. split; [exact Hq|]. split; [exact Hsize|].
  split; [rewrite Hw; reflexivity|]. split; [exact Hh|]. split; [exact S|].
  split; [exact Hstamp|]. rewrite Hstamp. vm_compute. discriminate.
Qed.

(** * Returns and slots on the 16-channel sensor *)

Lemma lone_return_kept (indeterminate : nat) :
  forallb
    (fun f =>
       forallb
         (fun k =>
            Nat.eqb
              (List.length
                 (stream_azimuths (VLP16Capture.ctor indeterminate)
                    [(1%Z, lone_return f k 1)]))
              (if (k <? VLP16Capture.MAX_NUM_LASERS)%nat then 2 else 0))
         (seq 0 LASER_PER_FIRING))
    (seq 0 FIRING_PER_PKT)
  = true.
Proof. vm_compute. reflexivity. Qed.

(** C7.  On the 16-channel object a packet whose only echo is one return of
    raw distance 1 never yields exactly one point: the return is read by the
    slots [k] and [k + 16] when its index [k] is below 16, which gives two
    points, and by no slot when its index is 16 or more, which gives none. *)
Theorem lone_return_twice_or_never :
  forall (indeterminate f k : nat),
    (f < FIRING_PER_PKT)%nat ->
    (k < LASER_PER_FIRING)%nat ->
    exists st' : CaptureState,
      capturePCAP false (VLP16Capture.ctor indeterminate) [(1%Z, lone_return f k 1)]
      = Ok st' /\
      total_points st'
      = (if (k <? VLP16Capture.MAX_NUM_LASERS)%nat then 2 else 0)%nat /\
      total_points st' <> 1%nat.
Proof.
  intros indeterminate f k Hf Hk.
  assert (Hm : MAX_NUM_LASERS (VLP16Capture.ctor indeterminate) <> O) by discriminate.
  assert (Hs : forallb (checked false) (map snd [(1%Z, lone_return f k 1)]) = true)
    by (vm_compute; reflexivity).
  destruct (capture_loop_total false (VLP16Capture.ctor indeterminate)
              [(1%Z, lone_return f k 1)] initial_state
              (calibrated_VLP16 indeterminate) Hs) as [st' E].
  destruct (capture_loop_last_azimuth false (VLP16Capture.ctor indeterminate)
              [(1%Z, lone_return f k 1)] initial_state st' Hm E) as [_ Hn].
  pose proof (lone_return_kept indeterminate) as Hall.
  rewrite forallb_forall in Hall.
  assert (Hin : In f (seq 0 FIRING_PER_PKT))
    by (apply in_seq; split; [apply Nat.le_0_l | exact Hf]).
  specialize (Hall f Hin). rewrite forallb_forall in Hall.
  assert (Hink : In k (seq 0 LASER_PER_FIRING))
    by (apply in_seq; split; [apply Nat.le_0_l | exact Hk]).
  specialize (Hall k Hink). apply Nat.eqb_eq in Hall.
  rewrite Hall in Hn. change (total_points initial_state) with O in Hn.
  rewrite Nat.add_0_l in Hn.
  exists st'. rewrite capturePCAP_loop. split; [exact E|]. split; [exact Hn|].
  rewrite Hn. destruct (k <? VLP16Capture.MAX_NUM_LASERS)%nat; discriminate.
Qed.

Lemma lone_return_twice_or_never_witness :
  exists st' : CaptureState,
    capturePCAP false (VLP16Capture.ctor 0) [(1%Z, lone_return 0 20 1)] = Ok st' /\
    total_points st' = 0%nat.
Proof.
  assert (Hf : (0 < FIRING_PER_PKT)%nat) by (unfold FIRING_PER_PKT; lia).
  assert (Hk : (20 < LASER_PER_FIRING)%nat) by (unfold LASER_PER_FIRING; lia).
  destruct (lone_return_twice_or_never 0 0 20 Hf Hk) as (st' & E & Hn & _).
  exists st'. exact (conj E Hn).
Defined.
